(** * Subiquity: filesystem controller and WSL configuration base model

    A shallow embedding of

    - [subiquity/controllers/filesystem.py]: [filesystem_handler],
      [add_disk_partition_handler], [show_disk_information_next],
      [show_disk_information_prev], [is_uefi];
    - [system_setup/models/wslconfbase.py]: [WSLConfigurationBaseModel].

    Python objects that are mutated in place (the disk model, the request
    dictionary, the signal bus and the log) are threaded through a state and
    exception monad: a raised exception keeps the mutations made before it,
    as in Python. *)

From Stdlib Require Import ZArith String List Lia.
From stdpp Require Import base option gmap strings list fin_maps.

Open Scope string_scope.
Open Scope Z_scope.
Open Scope list_scope.

(** ** Python values and exceptions *)

Module Py.

(** The values that flow through the modelled code. *)
Inductive pyval : Type :=
| VNone
| VBool (b : bool)
| VInt (z : Z)
| VStr (s : string).

#[global] Instance pyval_eq_dec : EqDecision pyval.
Proof. solve_decision. Defined.

(** Modelled from the spec: the kinds of the planner's typed error (spec,
    section 7); the sources raise no error type of their own. *)
Inductive planning_error_kind : Type :=
| InsufficientSpace
| InvalidRequest
| NotFound
| PersistenceDenied.

#[global] Instance planning_error_kind_eq_dec : EqDecision planning_error_kind.
Proof. solve_decision. Defined.

(** Exceptions, all of them subclasses of [Exception]. *)
Inductive exn : Type :=
| KeyError (key : string)
| AttributeError (name : string)
| TypeError
| ValueError
| IndexError
| ZeroDivisionError
| PermissionError
| PlanningError (kind : planning_error_kind).

#[global] Instance exn_eq_dec : EqDecision exn.
Proof. solve_decision. Defined.

Inductive result (A : Type) : Type :=
| Ok (a : A)
| Raise (e : exn).
Arguments Ok {A} a.
Arguments Raise {A} e.

(** [x is False] *)
Definition is_False (v : pyval) : bool :=
  match v with VBool false => true | _ => false end.

(** [bool] is a subclass of [int]; nothing else here is a number. *)
Definition as_int (v : pyval) : option Z :=
  match v with
  | VInt z => Some z
  | VBool b => Some (if b then 1 else 0)
  | _ => None
  end.

(** [a - b] *)
Definition py_sub (a b : pyval) : result pyval :=
  match as_int a, as_int b with
  | Some x, Some y => Ok (VInt (x - y))
  | _, _ => Raise TypeError
  end.

(** [a % b] on integers: the result has the sign of [b], as [Z.modulo]. *)
Definition py_mod (a b : Z) : result Z :=
  if b =? 0 then Raise ZeroDivisionError else Ok (a mod b).

(** [v == s] for a string literal [s]. *)
Definition eq_str (v : pyval) (s : string) : bool :=
  match v with VStr t => String.eqb t s | _ => false end.

(** [v in [s1, ..., sn]] for a list of string literals. *)
Definition in_strs (v : pyval) (l : list string) : bool :=
  existsb (eq_str v) l.

(** [l.index(x)]: the first position holding [x], [ValueError] if none. *)
Fixpoint list_index (l : list string) (x : string) : result Z :=
  match l with
  | [] => Raise ValueError
  | y :: l' =>
      if String.eqb y x then Ok 0
      else match list_index l' x with
           | Ok i => Ok (i + 1)
           | Raise e => Raise e
           end
  end.

(** [l[i]]: negative indices count from the end. *)
Definition list_getitem {A} (l : list A) (i : Z) : result A :=
  let n := Z.of_nat (length l) in
  let j := if i <? 0 then i + n else i in
  if (j <? 0) || (n <=? j) then Raise IndexError
  else match l !! Z.to_nat j with
       | Some a => Ok a
       | None => Raise IndexError
       end.

(** [d[k]] on a dictionary with string keys. *)
Definition dict_getitem (d : gmap string pyval) (k : string) : result pyval :=
  match d !! k with
  | Some v => Ok v
  | None => Raise (KeyError k)
  end.

(** [except Exception] catches every exception of the model;
    [except PermissionError] only that one. *)
Definition isinstance_Exception (e : exn) : bool := true.

Definition isinstance_PermissionError (e : exn) : bool :=
  match e with PermissionError => true | _ => false end.

End Py.
Import Py.

(** ** State and exception monad *)

Definition M (St A : Type) : Type := St -> result A * St.

Definition ret {St A} (a : A) : M St A := fun s => (Ok a, s).

Definition bind {St A B} (m : M St A) (k : A -> M St B) : M St B :=
  fun s => match m s with
           | (Ok a, s') => k a s'
           | (Raise e, s') => (Raise e, s')
           end.

Definition lift {St A} (r : result A) : M St A := fun s => (r, s).

Definition get {St} : M St St := fun s => (Ok s, s).

Definition modify {St} (f : St -> St) : M St unit := fun s => (Ok tt, f s).

(** [try: body except <cls>: handler]; an exception that is not an instance
    of the class propagates. *)
Definition try_except {St A} (body : M St A) (cls : exn -> bool)
    (handler : exn -> M St A) : M St A :=
  fun s => match body s with
           | (Ok a, s') => (Ok a, s')
           | (Raise e, s') => if cls e then handler e s' else (Raise e, s')
           end.

#[global] Instance M_ret {St} : MRet (M St) := fun A a => ret a.
#[global] Instance M_bind {St} : MBind (M St) := fun A B k m => bind m k.
#[global] Typeclasses Opaque M.

(** ** The controller's observable effects *)

(** Keyword arguments of one [add_partition] call; [None] in the last two
    fields means that the keyword is not passed. *)
Record add_partition_kwargs : Type := {
  kw_partnum : pyval;
  kw_size : pyval;
  kw_fstype : pyval;
  kw_mountpoint : option pyval;
  kw_flag : option pyval
}.

Inductive event : Type :=
| EmitSignal (name : string) (args : list pyval)
| LogInfo (msg : string)
| LogException (msg : string) (e : exn)
| AddPartition (kw : add_partition_kwargs)
| ShowDiskInformation (device : string).

(** The controller's state: what it mutates in the model ([world]) and the
    signals, log records and model calls it has issued, oldest first. *)
Record ctl (W : Type) : Type := {
  world : W;
  trace : list event
}.
Arguments world {W} c.
Arguments trace {W} c.

Definition record {W} (e : event) : M (ctl W) unit :=
  modify (fun s => {| world := world s; trace := trace s ++ [e] |}).

(** [self.signal.emit_signal(name, *args)] *)
Definition emit_signal {W} (name : string) (args : list pyval) : M (ctl W) unit :=
  record (EmitSignal name args).

(** [log.info(msg)], [log.exception(msg)] inside an [except] block. *)
Definition log_info {W} (msg : string) : M (ctl W) unit :=
  record (LogInfo msg).

Definition log_exception {W} (msg : string) (e : exn) : M (ctl W) unit :=
  record (LogException msg e).

(** Runs a computation on the model inside the controller. *)
Definition on_world {W A} (m : M W A) : M (ctl W) A :=
  fun s => let '(r, w) := m (world s) in
           (r, {| world := w; trace := trace s |}).

(** ** [subiquity/controllers/filesystem.py] *)

Definition BIOS_GRUB_SIZE_BYTES : Z := 2 * 1024 * 1024.
Definition UEFI_GRUB_SIZE_BYTES : Z := 512 * 1024 * 1024.

(** [self.opts] *)
Record opts : Type := {
  dry_run : bool;
  uefi : bool
}.

(** [is_uefi]; [sys_firmware_efi] is [os.path.exists('/sys/firmware/efi')]. *)
Definition is_uefi (o : opts) (sys_firmware_efi : bool) : bool :=
  if dry_run o && uefi o then true else sys_firmware_efi.

(** What the handler uses of a disk of the model ([self.model.get_disk(disk)],
    class [Blockdev] of [subiquity.models], which is not part of these
    sources): the partition table type, the number of partitions and
    [add_partition], which returns a value or raises and may change the disk
    either way. *)
Class Blockdev (D : Type) : Type := {
  parttype : D -> pyval;
  num_partitions : D -> nat;
  add_partition : add_partition_kwargs -> M D pyval
}.

(** The handler's model state: the disk and the caller's [spec] dictionary,
    both shared with the caller and mutated in place. *)
Record add_world (D : Type) : Type := {
  aw_disk : D;
  aw_spec : gmap string pyval
}.
Arguments aw_disk {D} a.
Arguments aw_spec {D} a.

Section AddDiskPartition.
Context {D : Type} `{Blockdev D}.

(** [current_disk.add_partition(...)] with the keyword arguments [kw] *)
Definition call_add_partition (kw : add_partition_kwargs)
    : M (ctl (add_world D)) pyval :=
  record (AddPartition kw);;
  on_world (fun w => let '(r, d) := add_partition kw (aw_disk w) in
                     (r, {| aw_disk := d; aw_spec := aw_spec w |})).

(** [spec[k]] and [spec[k] = v] *)
Definition spec_getitem (k : string) : M (ctl (add_world D)) pyval :=
  on_world (fun w => (dict_getitem (aw_spec w) k, w)).

Definition spec_setitem (k : string) (v : pyval) : M (ctl (add_world D)) unit :=
  on_world (modify (fun w => {| aw_disk := aw_disk w;
                                aw_spec := <[k:=v]> (aw_spec w) |})).

Definition current_disk : M (ctl (add_world D)) D :=
  on_world (fun w => (Ok (aw_disk w), w)).

Definition uefi_partition : add_partition_kwargs :=
  {| kw_partnum := VInt 1;
     kw_size := VInt UEFI_GRUB_SIZE_BYTES;
     kw_flag := Some (VStr "bios_grub");
     kw_fstype := VStr "fat32";
     kw_mountpoint := Some (VStr "/boot/efi") |}.

Definition bios_partition : add_partition_kwargs :=
  {| kw_partnum := VInt 1;
     kw_size := VInt BIOS_GRUB_SIZE_BYTES;
     kw_fstype := VNone;
     kw_flag := Some (VStr "bios_grub");
     kw_mountpoint := None |}.

(** The condition of the [if] that guards the boot partition. *)
Definition needs_boot_partition (system_bootable : pyval) (d : D) : bool :=
  is_False system_bootable
  && eq_str (parttype d) "gpt"
  && (num_partitions d =? 0)%nat.

(** The body of the [try] statement of [add_disk_partition_handler].
    [bootable] is what [self.model.bootable()] returns. The [log.debug]
    calls are left out; the one before [spec['bytes'] -= size_added]
    evaluates the same subscript and subtraction as that statement. *)
Definition add_disk_partition_try (o : opts) (sys_firmware_efi : bool)
    (bootable : pyval) : M (ctl (add_world D)) unit :=
  let system_bootable := bootable in
  d ← current_disk;
  (if needs_boot_partition system_bootable d then
     size_added ←
       (if is_uefi o sys_firmware_efi
        then call_add_partition uefi_partition
        else call_add_partition bios_partition);
     bytes ← spec_getitem "bytes";
     bytes' ← lift (py_sub bytes size_added);
     spec_setitem "bytes" bytes';;
     spec_setitem "partnum" (VInt 2)
   else mret tt);;
  fstype ← spec_getitem "fstype";
  if in_strs fstype ["swap"] then
    partnum ← spec_getitem "partnum";
    size ← spec_getitem "bytes";
    fstype ← spec_getitem "fstype";
    call_add_partition {| kw_partnum := partnum;
                          kw_size := size;
                          kw_fstype := fstype;
                          kw_mountpoint := None;
                          kw_flag := None |};;
    mret tt
  else
    partnum ← spec_getitem "partnum";
    size ← spec_getitem "bytes";
    fstype ← spec_getitem "fstype";
    mountpoint ← spec_getitem "mountpoint";
    call_add_partition {| kw_partnum := partnum;
                          kw_size := size;
                          kw_fstype := fstype;
                          kw_mountpoint := Some mountpoint;
                          kw_flag := None |};;
    mret tt.

(** [add_disk_partition_handler(self, disk, spec)]: the [try] statement
    with its [except Exception] block, and the statements after it. *)
Definition add_disk_partition_handler (o : opts) (sys_firmware_efi : bool)
    (bootable : pyval) (disk : string) : M (ctl (add_world D)) pyval :=
  try_except
    (add_disk_partition_try o sys_firmware_efi bootable)
    isinstance_Exception
    (fun e =>
       log_exception "Failed to add disk partition" e;;
       emit_signal "filesystem:add-disk-partition" [VStr disk]);;
  log_info "Successfully added partition";;
  emit_signal "filesystem:show-disk-partition" [VStr disk];;
  mret VNone.

End AddDiskPartition.

(** *** The disk model *)

Module SpecDisk.

(** Modelled from the spec: the partition of the spec's data model
    (section 3); class [Blockdev] of [subiquity.models] is not part of
    these sources. An absent mount point or boot role is [VNone]. *)
Record partition : Type := {
  p_number : pyval;
  p_size : Z;
  p_fstype : pyval;
  p_mountpoint : pyval;
  p_flag : pyval
}.

(** Modelled from the spec: the disk of the spec's data model (section 3):
    identifier, partition table style, total size, the partitions in
    order and the free space. *)
Record disk : Type := {
  d_name : string;
  d_parttype : string;
  d_size : Z;
  d_partitions : list partition;
  d_freespace : Z
}.

(** Modelled from the spec: the partition an [add_partition] call creates. *)
Definition new_partition (kw : add_partition_kwargs) (size : Z) : partition :=
  {| p_number := kw_partnum kw;
     p_size := size;
     p_fstype := kw_fstype kw;
     p_mountpoint := default VNone (kw_mountpoint kw);
     p_flag := default VNone (kw_flag kw) |}.

(** Modelled from the spec: [Blockdev.add_partition], which is not part of
    these sources. Step 2 of the spec's algorithm is the only validation
    the spec describes and the handler has none of its own, so it is
    placed here: the size must be at least 0 and at most the free space,
    otherwise the typed error of kind [InsufficientSpace] is raised and
    the disk is left as it was. Otherwise the partition is appended, the
    free space shrinks by its size, and the size added is returned (the
    spec reduces the request by exactly the boot partition's size). *)
Definition disk_add_partition (kw : add_partition_kwargs) : M disk pyval :=
  fun d =>
    match as_int (kw_size kw) with
    | None => (Raise TypeError, d)
    | Some size =>
        if (size <? 0) || (d_freespace d <? size)
        then (Raise (PlanningError InsufficientSpace), d)
        else (Ok (VInt size),
              {| d_name := d_name d;
                 d_parttype := d_parttype d;
                 d_size := d_size d;
                 d_partitions := d_partitions d ++ [new_partition kw size];
                 d_freespace := d_freespace d - size |})
    end.

(** Modelled from the spec: the disk of the spec as a disk of the handler. *)
#[global] Instance disk_Blockdev : Blockdev disk := {|
  parttype d := VStr (d_parttype d);
  num_partitions d := length (d_partitions d);
  add_partition := disk_add_partition
|}.

End SpecDisk.

(** *** Writing the curtin configuration *)

Section FilesystemHandler.
(** [subiquity.curtin] and [subiquity.models.actions] are not part of
    these sources: the two writers act on some world [W] (the files under
    /tmp) and return or raise; [preserve_action] returns or raises. *)
Context {action W : Type}.
Variable curtin_write_storage_actions : option (list action) -> M W unit.
Variable curtin_write_preserved_actions : list action -> M W unit.
Variable preserve_action : action -> result action.

(** [[preserve_action(a) for a in actions]]; iterating over [None] raises
    [TypeError]. *)
Fixpoint preserve_all (l : list action) : result (list action) :=
  match l with
  | [] => Ok []
  | a :: l' =>
      match preserve_action a with
      | Raise e => Raise e
      | Ok a' =>
          match preserve_all l' with
          | Raise e => Raise e
          | Ok r => Ok (a' :: r)
          end
      end
  end.

Definition preserved (actions : option (list action)) : result (list action) :=
  match actions with
  | None => Raise TypeError
  | Some l => preserve_all l
  end.

(** [filesystem_handler(self, reset=False, actions=None)]. Each [try]
    yields [Some v] when its [except] block executed [return v] and [None]
    when control falls through to the next statement. *)
Definition filesystem_handler (reset : pyval) (actions : option (list action))
    : M (ctl W) pyval :=
  (if bool_decide (actions = None) && is_False reset
   then emit_signal "network:show" []
   else mret tt);;
  log_info "Rendering curtin config from user choices";;
  returned ←
    try_except
      (on_world (curtin_write_storage_actions actions);; mret None)
      isinstance_PermissionError
      (fun e =>
         log_exception "Failed to write storage actions" e;;
         emit_signal "filesystem:error" [VStr "curtin_write_storage_actions"];;
         mret (Some VNone));
  match returned with
  | Some v => mret v
  | None =>
      log_info "Rendering preserved config for post install";;
      preserved_actions ← lift (preserved actions);
      returned ←
        try_except
          (on_world (curtin_write_preserved_actions preserved_actions);;
           mret None)
          isinstance_PermissionError
          (fun e =>
             log_exception "Failed to write preserved actions" e;;
             emit_signal "filesystem:error"
               [VStr "curtin_write_preserved_actions"];;
             mret (Some VNone));
      match returned with
      | Some v => mret v
      | None => emit_signal "identity:show" [];; mret VNone
      end
  end.

End FilesystemHandler.

(** *** Next and previous disk *)

Section DiskCursor.
Context {W : Type}.

(** [show_disk_information(self, device)] reads the model and sysfs and
    replaces the body of the UI; here the call is recorded. *)
Definition show_disk_information (device : string) : M (ctl W) pyval :=
  record (ShowDiskInformation device);; mret VNone.

Definition len {A} (l : list A) : Z := Z.of_nat (length l).

(** [show_disk_information_next(self, curr_device)]; [available] is what
    [self.model.get_available_disk_names()] returns. *)
Definition show_disk_information_next (available : list string)
    (curr_device : string) : M (ctl W) pyval :=
  idx ← lift (list_index available curr_device);
  next_idx ← lift (py_mod (idx + 1) (len available));
  next_device ← lift (list_getitem available next_idx);
  show_disk_information next_device.

(** [show_disk_information_prev(self, curr_device)] *)
Definition show_disk_information_prev (available : list string)
    (curr_device : string) : M (ctl W) pyval :=
  idx ← lift (list_index available curr_device);
  next_idx ← lift (py_mod (idx - 1) (len available));
  next_device ← lift (list_getitem available next_idx);
  show_disk_information next_device.

End DiskCursor.

(** ** [system_setup/models/wslconfbase.py] *)

Module WSL.

(** The [attr.s] class with its four attributes. *)
Record WSLConfigurationBase : Type := {
  automount_root : pyval;
  automount_options : pyval;
  network_generatehosts : pyval;
  network_generateresolvconf : pyval
}.

Definition fields : list string :=
  ["automount_root"; "automount_options";
   "network_generatehosts"; "network_generateresolvconf"].

(** [WSLConfigurationBase(...)] called with the keyword arguments [d]: the
    generated [__init__] has the four attributes as required parameters
    and raises [TypeError] for a missing or an unexpected keyword. *)
Definition WSLConfigurationBase_init (d : gmap string pyval)
    : result WSLConfigurationBase :=
  match d !! "automount_root", d !! "automount_options",
        d !! "network_generatehosts", d !! "network_generateresolvconf" with
  | Some a, Some b, Some c, Some e =>
      if decide (dom d ⊆ list_to_set fields)
      then Ok {| automount_root := a;
                 automount_options := b;
                 network_generatehosts := c;
                 network_generateresolvconf := e |}
      else Raise TypeError
  | _, _, _, _ => Raise TypeError
  end.

(** [result.name] on an object given by its attributes. *)
Definition getattr (obj : gmap string pyval) (name : string) : result pyval :=
  match obj !! name with
  | Some v => Ok v
  | None => Raise (AttributeError name)
  end.

Record WSLConfigurationBaseModel : Type := {
  _wslconfbase : option WSLConfigurationBase
}.

(** [WSLConfigurationBaseModel()] *)
Definition init : WSLConfigurationBaseModel :=
  {| _wslconfbase := None |}.

(** [apply_settings(self, result)] *)
Definition apply_settings (result : gmap string pyval)
    : M WSLConfigurationBaseModel pyval :=
  let d : gmap string pyval := ∅ in
  v ← lift (getattr result "automount_root");
  let d := <["automount_root" := v]> d in
  v ← lift (getattr result "automount_options");
  let d := <["automount_options" := v]> d in
  v ← lift (getattr result "network_generatehosts");
  let d := <["network_generatehosts" := v]> d in
  v ← lift (getattr result "network_generateresolvconf");
  let d := <["network_generateresolvconf" := v]> d in
  c ← lift (WSLConfigurationBase_init d);
  modify (fun self => {| _wslconfbase := Some c |});;
  mret VNone.

(** The [wslconfbase] property. *)
Definition wslconfbase (self : WSLConfigurationBaseModel)
    : option WSLConfigurationBase :=
  _wslconfbase self.

End WSL.

(** * Notions used in the statements *)

(** The [add_partition] calls of a trace, oldest first. *)
Definition add_partition_calls (tr : list event) : list add_partition_kwargs :=
  omap (fun e => match e with AddPartition kw => Some kw | _ => None end) tr.

Section Statements.
Context {D : Type} `{Blockdev D}.

(** The handler's state on entry: the disk, the request and the trace so
    far. *)
Definition start (d : D) (spec : gmap string pyval) (tr : list event)
    : ctl (add_world D) :=
  {| world := {| aw_disk := d; aw_spec := spec |}; trace := tr |}.

(** The boot partition the handler asks for first. *)
Definition boot_partition (o : opts) (efi : bool) : add_partition_kwargs :=
  if is_uefi o efi then uefi_partition else bios_partition.

(** The size of the boot partition the handler adds first, 0 when it adds
    none. *)
Definition boot_size (o : opts) (efi : bool)
    (bootable : pyval) (d : D) : Z :=
  if needs_boot_partition bootable d
  then (if is_uefi o efi then UEFI_GRUB_SIZE_BYTES else BIOS_GRUB_SIZE_BYTES)
  else 0.

End Statements.

(** The signals of a trace, oldest first. *)
Definition signals (tr : list event) : list (string * list pyval) :=
  omap (fun e => match e with EmitSignal n a => Some (n, a) | _ => None end) tr.

(** The exceptions logged in a trace, oldest first. *)
Definition logged_exceptions (tr : list event) : list exn :=
  omap (fun e => match e with LogException _ x => Some x | _ => None end) tr.

(** The device of the last [show_disk_information] call of a run. *)
Definition shown_device {W} (r : result pyval * ctl W) : option string :=
  match last (trace r.2) with
  | Some (ShowDiskInformation device) => Some device
  | _ => None
  end.

(** The device shown after asking [n] times for the next disk, each time
    from the device shown last. *)
Fixpoint press_next (n : nat) (available : list string) (curr : string)
    : option string :=
  match n with
  | O => Some curr
  | S n' =>
      match shown_device (show_disk_information_next available curr
                            {| world := tt; trace := [] |}) with
      | Some device => press_next n' available device
      | None => None
      end
  end.

(** An object with the attributes of a configuration record. *)
Definition attributes (c : WSL.WSLConfigurationBase) : gmap string pyval :=
  <["network_generateresolvconf" := WSL.network_generateresolvconf c]>
    (<["network_generatehosts" := WSL.network_generatehosts c]>
       (<["automount_options" := WSL.automount_options c]>
          (<["automount_root" := WSL.automount_root c]> ∅))).

(** ** Example inputs *)

Definition GiB : Z := 1024 * 1024 * 1024.

(** An empty gpt disk of 100 GiB. *)
Definition sda : SpecDisk.disk :=
  {| SpecDisk.d_name := "sda";
     SpecDisk.d_parttype := "gpt";
     SpecDisk.d_size := 100 * GiB;
     SpecDisk.d_partitions := [];
     SpecDisk.d_freespace := 100 * GiB |}.

(** An empty gpt disk of 1 GiB. *)
Definition sdc : SpecDisk.disk :=
  {| SpecDisk.d_name := "sdc";
     SpecDisk.d_parttype := "gpt";
     SpecDisk.d_size := GiB;
     SpecDisk.d_partitions := [];
     SpecDisk.d_freespace := GiB |}.

(** [{'partnum': 1, 'bytes': ..., 'fstype': ..., 'mountpoint': ...}] *)
Definition request (bytes : Z) (fstype : string) (mountpoint : pyval)
    : gmap string pyval :=
  <["mountpoint" := mountpoint]> (<["fstype" := VStr fstype]>
    (<["partnum" := VInt 1]> (<["bytes" := VInt bytes]> ∅))).

Definition no_opts : opts := {| dry_run := false; uefi := false |}.

(** Writers over a world that lists the files written so far: one that
    writes its actions and one that is denied. *)
Definition write_ok (name : string) (l : list nat)
    : M (list (string * list nat)) unit :=
  fun files => (Ok tt, files ++ [(name, l)]).

Definition write_denied (l : list nat) : M (list (string * list nat)) unit :=
  fun files => (Raise PermissionError, files).

Definition write_storage_ok (actions : option (list nat))
    : M (list (string * list nat)) unit :=
  match actions with
  | Some l => write_ok "storage" l
  | None => fun files => (Raise TypeError, files)
  end.

Definition write_storage_denied (actions : option (list nat))
    : M (list (string * list nat)) unit :=
  fun files => (Raise PermissionError, files).

(** * Properties *)

Lemma add_partition_calls_app tr1 tr2 :
  add_partition_calls (tr1 ++ tr2)
  = add_partition_calls tr1 ++ add_partition_calls tr2.
Proof. apply omap_app. Qed.

(** Unfolds the monad and the controller's primitives. *)
Ltac run :=
  cbv beta iota zeta delta
    [mbind mret M_bind M_ret bind ret lift get modify try_except
     on_world record emit_signal log_info log_exception
     call_add_partition spec_getitem spec_setitem current_disk
     show_disk_information isinstance_Exception dict_getitem] in *;
  cbn [world trace aw_disk aw_spec fst snd] in *.

Section AddDiskPartitionFacts.
Context {D : Type} `{Blockdev D}.

Lemma needs_boot_partition_false bootable d :
  is_False bootable = false ∨ (0 < num_partitions d)%nat
    ∨ parttype d ≠ VStr "gpt" →
  needs_boot_partition bootable d = false.
Proof.
  unfold needs_boot_partition. intros [Hb | [Hn | Hp]].
  - by rewrite Hb.
  - destruct (num_partitions d); [lia |].
    by rewrite andb_false_r.
  - destruct (parttype d) as [| | |s]; cbn; try by rewrite andb_false_r.
    destruct (String.eqb_spec s "gpt") as [-> | _]; [done |].
    by rewrite andb_false_r.
Qed.

(** The handler after its [try] statement: an exception raised in the
    body is logged and signalled, and the statements after the [try]
    statement run in both cases. *)
Lemma add_disk_partition_handler_unfold o efi bootable disk s :
  add_disk_partition_handler o efi bootable disk s =
  match add_disk_partition_try o efi bootable s with
  | (Ok _, s1) =>
      (Ok VNone,
       {| world := world s1;
          trace := trace s1 ++
            [LogInfo "Successfully added partition";
             EmitSignal "filesystem:show-disk-partition" [VStr disk]] |})
  | (Raise e, s1) =>
      (Ok VNone,
       {| world := world s1;
          trace := trace s1 ++
            [LogException "Failed to add disk partition" e;
             EmitSignal "filesystem:add-disk-partition" [VStr disk];
             LogInfo "Successfully added partition";
             EmitSignal "filesystem:show-disk-partition" [VStr disk]] |})
  end.
Proof.
  unfold add_disk_partition_handler. run.
  destruct (add_disk_partition_try o efi bootable s) as [[[]|e] s1];
    run; rewrite <- ?app_assoc; reflexivity.
Qed.

(** The user's partition, when no boot partition goes first. *)
Lemma add_disk_partition_try_plain o efi bootable d spec tr pn sz ft :
  needs_boot_partition bootable d = false →
  spec !! "partnum" = Some pn →
  spec !! "bytes" = Some sz →
  spec !! "fstype" = Some ft →
  (in_strs ft ["swap"] = false → is_Some (spec !! "mountpoint")) →
  ∃ kw,
    kw_partnum kw = pn ∧ kw_size kw = sz ∧ kw_fstype kw = ft
    ∧ kw_flag kw = None
    ∧ kw_mountpoint kw
      = (if in_strs ft ["swap"] then None else spec !! "mountpoint")
    ∧ add_disk_partition_try o efi bootable (start d spec tr)
      = (match (add_partition kw d).1 with
         | Ok _ => Ok tt
         | Raise e => Raise e
         end,
         start (add_partition kw d).2 spec (tr ++ [AddPartition kw])).
Proof.
  intros Hc Hpn Hsz Hft Hmp.
  unfold add_disk_partition_try, start. run. rewrite Hc. run.
  rewrite Hft.
  destruct (in_strs ft ["swap"]) eqn:Hswap; run; rewrite ?Hpn, ?Hsz, ?Hft.
  - exists {| kw_partnum := pn; kw_size := sz; kw_fstype := ft;
              kw_mountpoint := None; kw_flag := None |}.
    repeat split. cbn [fst snd].
    by destruct (add_partition _ d) as [[v|e] d'].
  - destruct Hmp as [mp Hmp]; [done |]. rewrite Hmp.
    exists {| kw_partnum := pn; kw_size := sz; kw_fstype := ft;
              kw_mountpoint := Some mp; kw_flag := None |}.
    repeat split. cbn [fst snd].
    by destruct (add_partition _ d) as [[v|e] d'].
Qed.

(** Once the boot partition is added and the request adjusted, the body
    goes on as it does when no boot partition is needed. *)
Lemma add_disk_partition_try_boot o efi bootable d spec tr
      size_added d1 bytes bytes' :
  needs_boot_partition bootable d = true →
  add_partition (boot_partition o efi) d = (Ok size_added, d1) →
  spec !! "bytes" = Some bytes →
  py_sub bytes size_added = Ok bytes' →
  add_disk_partition_try o efi bootable (start d spec tr)
  = add_disk_partition_try o efi (VBool true)
      (start d1 (<["partnum" := VInt 2]> (<["bytes" := bytes']> spec))
         (tr ++ [AddPartition (boot_partition o efi)])).
Proof.
  intros Hc Hadd Hb Hsub.
  unfold add_disk_partition_try, start, boot_partition in *.
  run. rewrite Hc. change (needs_boot_partition (VBool true) d1) with false.
  destruct (is_uefi o efi); run; rewrite Hadd; run;
    rewrite Hb, Hsub; reflexivity.
Qed.

(** The ways in which adding the boot partition ends the body early. *)
Lemma add_disk_partition_try_boot_raise o efi bootable d spec tr e d1 :
  needs_boot_partition bootable d = true →
  add_partition (boot_partition o efi) d = (Raise e, d1) →
  add_disk_partition_try o efi bootable (start d spec tr)
  = (Raise e, start d1 spec (tr ++ [AddPartition (boot_partition o efi)])).
Proof.
  intros Hc Hadd.
  unfold add_disk_partition_try, start, boot_partition in *.
  run. rewrite Hc.
  destruct (is_uefi o efi); run; rewrite Hadd; reflexivity.
Qed.

Lemma add_disk_partition_try_boot_adjust_raise o efi bootable d spec tr
      size_added d1 e :
  needs_boot_partition bootable d = true →
  add_partition (boot_partition o efi) d = (Ok size_added, d1) →
  match spec !! "bytes" with
  | Some bytes => py_sub bytes size_added
  | None => Raise (KeyError "bytes")
  end = Raise e →
  add_disk_partition_try o efi bootable (start d spec tr)
  = (Raise e, start d1 spec (tr ++ [AddPartition (boot_partition o efi)])).
Proof.
  intros Hc Hadd Hb.
  unfold add_disk_partition_try, start, boot_partition in *.
  run. rewrite Hc.
  destruct (is_uefi o efi); run; rewrite Hadd; run;
    (destruct (spec !! "bytes") as [bytes|];
     [rewrite Hb; reflexivity | by inversion Hb]).
Qed.

Lemma needs_boot_partition_true bootable d :
  needs_boot_partition bootable d = true ↔
  bootable = VBool false ∧ parttype d = VStr "gpt"
  ∧ num_partitions d = 0%nat.
Proof.
  unfold needs_boot_partition. rewrite !andb_true_iff, Nat.eqb_eq.
  split.
  - intros [[Hb Hp] Hn]. repeat split; [| | done].
    + by destruct bootable as [|[]| |].
    + destruct (parttype d) as [| | |s]; try done. cbn in Hp.
      by apply String.eqb_eq in Hp as ->.
  - intros (-> & -> & ->). done.
Qed.

(** The boot partition first, the user's partition second. *)
Lemma add_disk_partition_try_boot_user o efi bootable d spec tr
      size_added d1 bytes bytes' ft :
  needs_boot_partition bootable d = true →
  add_partition (boot_partition o efi) d = (Ok size_added, d1) →
  spec !! "bytes" = Some bytes →
  py_sub bytes size_added = Ok bytes' →
  spec !! "fstype" = Some ft →
  (in_strs ft ["swap"] = false → is_Some (spec !! "mountpoint")) →
  ∃ user,
    kw_partnum user = VInt 2 ∧ kw_size user = bytes' ∧ kw_fstype user = ft
    ∧ kw_flag user = None
    ∧ kw_mountpoint user
      = (if in_strs ft ["swap"] then None else spec !! "mountpoint")
    ∧ add_disk_partition_try o efi bootable (start d spec tr)
      = (match (add_partition user d1).1 with
         | Ok _ => Ok tt
         | Raise e => Raise e
         end,
         start (add_partition user d1).2
           (<["partnum" := VInt 2]> (<["bytes" := bytes']> spec))
           (tr ++ [AddPartition (boot_partition o efi); AddPartition user])).
Proof.
  intros Hc Hadd Hb Hsub Hft Hmp.
  rewrite (add_disk_partition_try_boot o efi bootable d spec tr
             size_added d1 bytes bytes' Hc Hadd Hb Hsub).
  destruct (add_disk_partition_try_plain o efi (VBool true) d1
              (<["partnum" := VInt 2]> (<["bytes" := bytes']> spec))
              (tr ++ [AddPartition (boot_partition o efi)])
              (VInt 2) bytes' ft)
    as (user & Kpn & Ksz & Kft & Kfl & Kmp & Hrun).
  - reflexivity.
  - by simplify_map_eq.
  - by simplify_map_eq.
  - by simplify_map_eq.
  - intros Hs. specialize (Hmp Hs). by simplify_map_eq.
  - exists user. repeat split; try done.
    + rewrite Kmp. destruct (in_strs ft ["swap"]); [done |].
      by simplify_map_eq.
    + rewrite Hrun, <- app_assoc. reflexivity.
Qed.

(** Every way the body can go when no boot partition is needed: a key of
    the request is missing, or [add_partition] is called once with what
    the request holds. *)
Lemma add_disk_partition_try_plain_cases o efi bootable d spec tr :
  needs_boot_partition bootable d = false →
  (∃ k, spec !! k = None
        ∧ add_disk_partition_try o efi bootable (start d spec tr)
          = (Raise (KeyError k), start d spec tr))
  ∨ (∃ kw,
        spec !! "partnum" = Some (kw_partnum kw)
        ∧ spec !! "bytes" = Some (kw_size kw)
        ∧ spec !! "fstype" = Some (kw_fstype kw)
        ∧ kw_flag kw = None
        ∧ kw_mountpoint kw
          = (if in_strs (kw_fstype kw) ["swap"] then None
             else spec !! "mountpoint")
        ∧ add_disk_partition_try o efi bootable (start d spec tr)
          = (match (add_partition kw d).1 with
             | Ok _ => Ok tt
             | Raise e => Raise e
             end,
             start (add_partition kw d).2 spec (tr ++ [AddPartition kw]))).
Proof.
  intros Hc.
  destruct (spec !! "fstype") as [ft|] eqn:Hft; cycle 1.
  { left. exists "fstype". split; [done |].
    unfold add_disk_partition_try, start. run. rewrite Hc. run.
    by rewrite Hft. }
  destruct (spec !! "partnum") as [pn|] eqn:Hpn; cycle 1.
  { left. exists "partnum". split; [done |].
    unfold add_disk_partition_try, start. run. rewrite Hc. run.
    rewrite Hft. destruct (in_strs ft ["swap"]); run; by rewrite Hpn. }
  destruct (spec !! "bytes") as [sz|] eqn:Hsz; cycle 1.
  { left. exists "bytes". split; [done |].
    unfold add_disk_partition_try, start. run. rewrite Hc. run.
    rewrite Hft. destruct (in_strs ft ["swap"]); run;
      by rewrite Hpn, Hsz. }
  destruct (in_strs ft ["swap"]) eqn:Hswap.
  - right.
    destruct (add_disk_partition_try_plain o efi bootable d spec tr
                pn sz ft Hc Hpn Hsz Hft)
      as (kw & <- & <- & <- & Kfl & Kmp & Hrun);
      [rewrite Hswap; intros [=] |].
    exists kw. done.
  - destruct (spec !! "mountpoint") as [mp|] eqn:Hmp.
    + right.
      destruct (add_disk_partition_try_plain o efi bootable d spec tr
                  pn sz ft Hc Hpn Hsz Hft)
        as (kw & <- & <- & <- & Kfl & Kmp & Hrun); [by rewrite Hmp |].
      exists kw. rewrite Hmp in Kmp. done.
    + left. exists "mountpoint". split; [done |].
      unfold add_disk_partition_try, start. run. rewrite Hc. run.
      rewrite Hft, Hswap. run. by rewrite Hpn, Hsz, Hft, Hmp.
Qed.

(** Every way the body can go when a boot partition is needed: adding it
    or adjusting the request raises, or the body goes on with the adjusted
    request. *)
Lemma add_disk_partition_try_boot_cases o efi bootable d spec tr :
  needs_boot_partition bootable d = true →
  (∃ e d1,
      add_disk_partition_try o efi bootable (start d spec tr)
      = (Raise e, start d1 spec (tr ++ [AddPartition (boot_partition o efi)])))
  ∨ (∃ size_added d1 bytes bytes',
        add_partition (boot_partition o efi) d = (Ok size_added, d1)
        ∧ spec !! "bytes" = Some bytes
        ∧ py_sub bytes size_added = Ok bytes'
        ∧ add_disk_partition_try o efi bootable (start d spec tr)
          = add_disk_partition_try o efi (VBool true)
              (start d1 (<["partnum" := VInt 2]> (<["bytes" := bytes']> spec))
                 (tr ++ [AddPartition (boot_partition o efi)]))).
Proof.
  intros Hc.
  destruct (add_partition (boot_partition o efi) d) as [[sa|e] d1] eqn:Hadd.
  - destruct (spec !! "bytes") as [bytes|] eqn:Hb.
    + destruct (py_sub bytes sa) as [bytes'|e] eqn:Hsub.
      * right. exists sa, d1, bytes, bytes'. repeat split; try done.
        by apply add_disk_partition_try_boot
          with (size_added := sa) (bytes := bytes).
      * left. exists e, d1.
        apply add_disk_partition_try_boot_adjust_raise
          with (size_added := sa); try done. by rewrite Hb.
    + left. exists (KeyError "bytes"), d1.
      apply add_disk_partition_try_boot_adjust_raise
        with (size_added := sa); try done. by rewrite Hb.
  - left. exists e, d1. by apply add_disk_partition_try_boot_raise.
Qed.

(** What the handler leaves behind, from what the body leaves behind. *)
Lemma add_disk_partition_handler_calls o efi bootable disk s r s1 :
  add_disk_partition_try o efi bootable s = (r, s1) →
  add_partition_calls
    (trace (add_disk_partition_handler o efi bootable disk s).2)
  = add_partition_calls (trace s1)
  ∧ world (add_disk_partition_handler o efi bootable disk s).2 = world s1.
Proof.
  intros Hrun. rewrite add_disk_partition_handler_unfold, Hrun.
  destruct r as [[]|e]; cbn [snd world trace];
    rewrite add_partition_calls_app; cbn; by rewrite app_nil_r.
Qed.

End AddDiskPartitionFacts.

(** ** The partition handler *)

(** C5: no boot partition is added first when the system is already
    bootable, or the disk has a partition, or its partition table is not
    gpt. The handler then makes one [add_partition] call, with the partition
    number and the size of the request as they were given and with no boot
    flag, and leaves the request as it was. *)
Theorem no_boot_partition_keeps_request
    {D} `{Blockdev D} o efi bootable disk (d : D)
    (spec : gmap string pyval) tr pn sz ft :
  bootable = VBool true ∨ (0 < num_partitions d)%nat
    ∨ parttype d ≠ VStr "gpt" →
  spec !! "partnum" = Some pn →
  spec !! "bytes" = Some sz →
  spec !! "fstype" = Some ft →
  (in_strs ft ["swap"] = false → is_Some (spec !! "mountpoint")) →
  let s' := (add_disk_partition_handler o efi bootable disk
               (start d spec tr)).2 in
  ∃ kw,
    add_partition_calls (trace s') = add_partition_calls tr ++ [kw]
    ∧ kw_partnum kw = pn ∧ kw_size kw = sz ∧ kw_fstype kw = ft
    ∧ kw_flag kw = None
    ∧ aw_disk (world s') = (add_partition kw d).2
    ∧ aw_spec (world s') = spec.
Proof.
  intros Hc Hpn Hsz Hft Hmp s'. subst s'.
  assert (Hno : needs_boot_partition bootable d = false).
  { apply needs_boot_partition_false.
    destruct Hc as [-> | Hc]; [by left | by right]. }
  destruct (add_disk_partition_try_plain o efi bootable d spec tr pn sz ft
              Hno Hpn Hsz Hft Hmp)
    as (kw & Kpn & Ksz & Kft & Kfl & _ & Hrun).
  exists kw. rewrite add_disk_partition_handler_unfold, Hrun.
  destruct (add_partition kw d) as [[v|e] d']; cbn [fst snd start world trace
    aw_disk aw_spec]; rewrite !add_partition_calls_app; cbn;
    rewrite app_nil_r; done.
Qed.

Lemma no_boot_partition_keeps_request_witness :
  let d := {| SpecDisk.d_name := "sdb"; SpecDisk.d_parttype := "msdos";
              SpecDisk.d_size := 8589934592; SpecDisk.d_partitions := [];
              SpecDisk.d_freespace := 8589934592 |} in
  let spec : gmap string pyval :=
    <["mountpoint" := VStr "/home"]> (<["fstype" := VStr "ext4"]>
      (<["partnum" := VInt 1]> (<["bytes" := VInt 1073741824]> ∅))) in
  let s' := (add_disk_partition_handler
               {| dry_run := false; uefi := false |} true (VBool false)
               "sdb" (start d spec [])).2 in
  ∃ kw,
    add_partition_calls (trace s') = add_partition_calls [] ++ [kw]
    ∧ kw_partnum kw = VInt 1 ∧ kw_size kw = VInt 1073741824
    ∧ kw_fstype kw = VStr "ext4"
    ∧ kw_flag kw = None
    ∧ aw_disk (world s') = (add_partition kw d).2
    ∧ aw_spec (world s') = spec.
Proof.
  intros d spec.
  apply (no_boot_partition_keeps_request
           {| dry_run := false; uefi := false |} true (VBool false) "sdb"
           d spec [] (VInt 1) (VInt 1073741824) (VStr "ext4")).
  - right; right. vm_compute. discriminate.
  - vm_compute; reflexivity.
  - vm_compute; reflexivity.
  - vm_compute; reflexivity.
  - intros _. exists (VStr "/home"). vm_compute; reflexivity.
Defined.

(** C2: on a gpt disk without partitions, when the system is not bootable
    yet and the firmware is legacy BIOS, the handler first asks for partition
    1 of 2 MiB with no filesystem, no mount point and the flag bios_grub, and
    then for the user's partition as partition 2; when [add_partition]
    reports the 2 MiB it was asked for as the size added, the user's
    partition has the requested bytes minus 2 MiB. *)
Theorem bios_grub_partition_first
    {D} `{Blockdev D} o efi disk (d d1 : D)
    (spec : gmap string pyval) tr b ft :
  parttype d = VStr "gpt" →
  num_partitions d = 0%nat →
  is_uefi o efi = false →
  add_partition {| kw_partnum := VInt 1;
                   kw_size := VInt (2 * 1024 * 1024);
                   kw_fstype := VNone;
                   kw_mountpoint := None;
                   kw_flag := Some (VStr "bios_grub") |} d
  = (Ok (VInt (2 * 1024 * 1024)), d1) →
  spec !! "bytes" = Some (VInt b) →
  spec !! "fstype" = Some ft →
  (in_strs ft ["swap"] = false → is_Some (spec !! "mountpoint")) →
  let s' := (add_disk_partition_handler o efi (VBool false) disk
               (start d spec tr)).2 in
  ∃ user,
    add_partition_calls (trace s')
    = add_partition_calls tr ++
      [ {| kw_partnum := VInt 1;
           kw_size := VInt (2 * 1024 * 1024);
           kw_fstype := VNone;
           kw_mountpoint := None;
           kw_flag := Some (VStr "bios_grub") |};
        user ]
    ∧ kw_partnum user = VInt 2
    ∧ kw_size user = VInt (b - 2 * 1024 * 1024)
    ∧ kw_fstype user = ft
    ∧ kw_flag user = None.
Proof.
  intros Hp Hn Hu Hadd Hb Hft Hmp s'. subst s'.
  assert (Hc : needs_boot_partition (VBool false) d = true)
    by (by apply needs_boot_partition_true).
  assert (Hboot : boot_partition o efi = bios_partition)
    by (unfold boot_partition; by rewrite Hu).
  change (add_partition bios_partition d = (Ok (VInt BIOS_GRUB_SIZE_BYTES), d1))
    in Hadd.
  rewrite <- Hboot in Hadd.
  destruct (add_disk_partition_try_boot_user o efi (VBool false) d spec tr
              (VInt BIOS_GRUB_SIZE_BYTES) d1 (VInt b)
              (VInt (b - BIOS_GRUB_SIZE_BYTES)) ft Hc Hadd Hb eq_refl Hft Hmp)
    as (user & Kpn & Ksz & Kft & Kfl & _ & Hrun).
  exists user. rewrite add_disk_partition_handler_unfold, Hrun, Hboot.
  destruct (add_partition user d1) as [[v|e] d2];
    cbn [fst snd start world trace]; rewrite !add_partition_calls_app; cbn;
    rewrite app_nil_r; done.
Qed.

Lemma bios_grub_partition_first_witness :
  let s' := (add_disk_partition_handler no_opts false (VBool false) "sda"
               (start sda (request (10 * GiB) "ext4" (VStr "/")) [])).2 in
  ∃ user,
    add_partition_calls (trace s')
    = add_partition_calls [] ++
      [ {| kw_partnum := VInt 1;
           kw_size := VInt (2 * 1024 * 1024);
           kw_fstype := VNone;
           kw_mountpoint := None;
           kw_flag := Some (VStr "bios_grub") |};
        user ]
    ∧ kw_partnum user = VInt 2
    ∧ kw_size user = VInt (10 * GiB - 2 * 1024 * 1024)
    ∧ kw_fstype user = VStr "ext4"
    ∧ kw_flag user = None.
Proof.
  apply (bios_grub_partition_first no_opts false "sda" sda
           (add_partition bios_partition sda).2
           (request (10 * GiB) "ext4" (VStr "/")) [] (10 * GiB) (VStr "ext4")).
  - reflexivity.
  - reflexivity.
  - reflexivity.
  - reflexivity.
  - vm_compute; reflexivity.
  - vm_compute; reflexivity.
  - intros _. exists (VStr "/"). vm_compute; reflexivity.
Defined.

(** C1: on a gpt disk without partitions, when the system is not bootable
    yet and the firmware is UEFI, the handler first asks for partition 1 of
    512 MiB with filesystem fat32 and mount point /boot/efi, and then for
    the user's partition as partition 2, with the requested bytes minus
    512 MiB when [add_partition] reports the 512 MiB it was asked for. The
    flag of the first partition is bios_grub, as in the legacy branch, and
    not an EFI role. *)
Theorem uefi_partition_first_flag_bios_grub
    {D} `{Blockdev D} o efi disk (d d1 : D)
    (spec : gmap string pyval) tr b ft :
  parttype d = VStr "gpt" →
  num_partitions d = 0%nat →
  is_uefi o efi = true →
  add_partition {| kw_partnum := VInt 1;
                   kw_size := VInt (512 * 1024 * 1024);
                   kw_fstype := VStr "fat32";
                   kw_mountpoint := Some (VStr "/boot/efi");
                   kw_flag := Some (VStr "bios_grub") |} d
  = (Ok (VInt (512 * 1024 * 1024)), d1) →
  spec !! "bytes" = Some (VInt b) →
  spec !! "fstype" = Some ft →
  (in_strs ft ["swap"] = false → is_Some (spec !! "mountpoint")) →
  let s' := (add_disk_partition_handler o efi (VBool false) disk
               (start d spec tr)).2 in
  ∃ first user,
    add_partition_calls (trace s') = add_partition_calls tr ++ [first; user]
    ∧ kw_partnum first = VInt 1
    ∧ kw_size first = VInt (512 * 1024 * 1024)
    ∧ kw_fstype first = VStr "fat32"
    ∧ kw_mountpoint first = Some (VStr "/boot/efi")
    ∧ kw_flag first = Some (VStr "bios_grub")
    ∧ kw_flag first ≠ Some (VStr "efi")
    ∧ kw_partnum user = VInt 2
    ∧ kw_size user = VInt (b - 512 * 1024 * 1024).
Proof.
  intros Hp Hn Hu Hadd Hb Hft Hmp s'. subst s'.
  assert (Hc : needs_boot_partition (VBool false) d = true)
    by (by apply needs_boot_partition_true).
  assert (Hboot : boot_partition o efi = uefi_partition)
    by (unfold boot_partition; by rewrite Hu).
  change (add_partition uefi_partition d = (Ok (VInt UEFI_GRUB_SIZE_BYTES), d1))
    in Hadd.
  rewrite <- Hboot in Hadd.
  destruct (add_disk_partition_try_boot_user o efi (VBool false) d spec tr
              (VInt UEFI_GRUB_SIZE_BYTES) d1 (VInt b)
              (VInt (b - UEFI_GRUB_SIZE_BYTES)) ft Hc Hadd Hb eq_refl Hft Hmp)
    as (user & Kpn & Ksz & Kft & Kfl & _ & Hrun).
  exists uefi_partition, user.
  rewrite add_disk_partition_handler_unfold, Hrun, Hboot.
  destruct (add_partition user d1) as [[v|e] d2];
    cbn [fst snd start world trace]; rewrite !add_partition_calls_app; cbn;
    rewrite app_nil_r; done.
Qed.

Lemma uefi_partition_first_flag_bios_grub_witness :
  let s' := (add_disk_partition_handler no_opts true (VBool false) "sda"
               (start sda (request (10 * GiB) "ext4" (VStr "/")) [])).2 in
  ∃ first user,
    add_partition_calls (trace s') = add_partition_calls [] ++ [first; user]
    ∧ kw_partnum first = VInt 1
    ∧ kw_size first = VInt (512 * 1024 * 1024)
    ∧ kw_fstype first = VStr "fat32"
    ∧ kw_mountpoint first = Some (VStr "/boot/efi")
    ∧ kw_flag first = Some (VStr "bios_grub")
    ∧ kw_flag first ≠ Some (VStr "efi")
    ∧ kw_partnum user = VInt 2
    ∧ kw_size user = VInt (10 * GiB - 512 * 1024 * 1024).
Proof.
  apply (uefi_partition_first_flag_bios_grub no_opts true "sda" sda
           (add_partition uefi_partition sda).2
           (request (10 * GiB) "ext4" (VStr "/")) [] (10 * GiB) (VStr "ext4")).
  - reflexivity.
  - reflexivity.
  - reflexivity.
  - reflexivity.
  - vm_compute; reflexivity.
  - vm_compute; reflexivity.
  - intros _. exists (VStr "/"). vm_compute; reflexivity.
Defined.

(** C9: when a boot partition is added first, the caller's request
    dictionary is changed in place: afterwards its 'bytes' entry is what it
    was minus the size [add_partition] reported for the boot partition and
    its 'partnum' entry is 2, whether or not the user's partition is added
    after that; every other entry is as before. *)
Theorem request_adjusted_in_place
    {D} `{Blockdev D} o efi disk (d d1 : D)
    (spec : gmap string pyval) tr b size_added :
  parttype d = VStr "gpt" →
  num_partitions d = 0%nat →
  add_partition (if is_uefi o efi then uefi_partition else bios_partition) d
  = (Ok (VInt size_added), d1) →
  spec !! "bytes" = Some (VInt b) →
  let s' := (add_disk_partition_handler o efi (VBool false) disk
               (start d spec tr)).2 in
  aw_spec (world s')
  = <["partnum" := VInt 2]> (<["bytes" := VInt (b - size_added)]> spec).
Proof.
  intros Hp Hn Hadd Hb s'. subst s'.
  assert (Hc : needs_boot_partition (VBool false) d = true)
    by (by apply needs_boot_partition_true).
  rewrite add_disk_partition_handler_unfold.
  rewrite (add_disk_partition_try_boot o efi (VBool false) d spec tr
             (VInt size_added) d1 (VInt b) (VInt (b - size_added))
             Hc Hadd Hb eq_refl).
  match goal with
  | |- context [add_disk_partition_try o efi (VBool true) (start d1 ?sp ?t)] =>
      destruct (add_disk_partition_try_plain_cases o efi (VBool true) d1 sp t
                  eq_refl)
        as [(k & _ & ->) | (kw & _ & _ & _ & _ & _ & ->)]
  end.
  - reflexivity.
  - by destruct (add_partition kw d1) as [[v|e] d2].
Qed.

Lemma request_adjusted_in_place_witness :
  let s' := (add_disk_partition_handler no_opts true (VBool false) "sda"
               (start sda (request (10 * GiB) "ext4" (VStr "/")) [])).2 in
  aw_spec (world s')
  = <["partnum" := VInt 2]>
      (<["bytes" := VInt (10 * GiB - 512 * 1024 * 1024)]>
         (request (10 * GiB) "ext4" (VStr "/"))).
Proof.
  apply (request_adjusted_in_place no_opts true "sda" sda
           (add_partition uefi_partition sda).2
           (request (10 * GiB) "ext4" (VStr "/")) [] (10 * GiB)
           (512 * 1024 * 1024)).
  - reflexivity.
  - reflexivity.
  - reflexivity.
  - vm_compute; reflexivity.
Defined.

(** C6: for a request whose filesystem type is swap, the handler adds at
    most the boot partition and then the user's partition, and the call for
    the user's partition passes no mount point (and no flag), whatever the
    request holds under 'mountpoint'; the call is made whenever the body of
    the [try] statement ends without an exception. *)
Theorem swap_partition_has_no_mountpoint
    {D} `{Blockdev D} o efi bootable disk (d : D)
    (spec : gmap string pyval) tr :
  spec !! "fstype" = Some (VStr "swap") →
  let s' := (add_disk_partition_handler o efi bootable disk
               (start d spec tr)).2 in
  ∃ boot user,
    add_partition_calls (trace s') = add_partition_calls tr ++ boot ++ user
    ∧ (boot = [] ∨ boot = [uefi_partition] ∨ boot = [bios_partition])
    ∧ (user = []
       ∨ ∃ partnum size,
           user = [ {| kw_partnum := partnum;
                       kw_size := size;
                       kw_fstype := VStr "swap";
                       kw_mountpoint := None;
                       kw_flag := None |} ])
    ∧ ((add_disk_partition_try o efi bootable (start d spec tr)).1 = Ok tt →
       user ≠ []).
Proof.
  intros Hft s'. subst s'.
  assert (Hplain : ∀ b' d' spec' tr',
    needs_boot_partition b' d' = false →
    spec' !! "fstype" = Some (VStr "swap") →
    ∃ user,
      add_partition_calls
        (trace (add_disk_partition_try o efi b' (start d' spec' tr')).2)
      = add_partition_calls tr' ++ user
      ∧ (user = []
         ∨ ∃ partnum size,
             user = [ {| kw_partnum := partnum;
                         kw_size := size;
                         kw_fstype := VStr "swap";
                         kw_mountpoint := None;
                         kw_flag := None |} ])
      ∧ ((add_disk_partition_try o efi b' (start d' spec' tr')).1 = Ok tt →
         user ≠ [])).
  { intros b' d' spec' tr' Hc' Hft'.
    destruct (add_disk_partition_try_plain_cases o efi b' d' spec' tr' Hc')
      as [(k & _ & ->) | (kw & _ & _ & Kft & Kfl & Kmp & ->)].
    - exists []. cbn. rewrite app_nil_r. split; [done |]. split; [by left |].
      intros [=].
    - exists [kw]. cbn [snd start trace]. rewrite add_partition_calls_app.
      split; [done |]. split; [| done].
      right. exists (kw_partnum kw), (kw_size kw).
      rewrite Hft' in Kft. injection Kft as Kft.
      rewrite <- Kft in Kmp. cbn in Kmp.
      destruct kw; cbn in *. by subst. }
  destruct (needs_boot_partition bootable d) eqn:Hc.
  - destruct (add_disk_partition_try_boot_cases o efi bootable d spec tr Hc)
      as [(e & d1 & Hrun) | (sa & d1 & bytes & bytes' & _ & _ & _ & Hrun)].
    + exists [boot_partition o efi], [].
      destruct (add_disk_partition_handler_calls o efi bootable disk _ _ _ Hrun)
        as [-> _].
      rewrite Hrun. cbn [fst snd start trace].
      rewrite add_partition_calls_app. split; [done |].
      split; [| split; [by left | intros [=]]].
      unfold boot_partition. destruct (is_uefi o efi); auto.
    + destruct (Hplain (VBool true) d1
                  (<["partnum" := VInt 2]> (<["bytes" := bytes']> spec))
                  (tr ++ [AddPartition (boot_partition o efi)]) eq_refl)
        as (user & Hcalls & Huser & Hok); [by simplify_map_eq |].
      exists [boot_partition o efi], user.
      rewrite <- Hrun in Hcalls, Hok.
      destruct (add_disk_partition_try o efi bootable (start d spec tr))
        as [r s1] eqn:Hbody.
      destruct (add_disk_partition_handler_calls o efi bootable disk _ _ _
                  Hbody) as [-> _].
      cbn [fst snd] in *. rewrite Hcalls, add_partition_calls_app.
      split; [by rewrite <- app_assoc |].
      split; [| done].
      unfold boot_partition. destruct (is_uefi o efi); auto.
  - destruct (Hplain bootable d spec tr Hc Hft) as (user & Hcalls & Huser & Hok).
    exists [], user.
    destruct (add_disk_partition_try o efi bootable (start d spec tr))
      as [r s1] eqn:Hbody.
    destruct (add_disk_partition_handler_calls o efi bootable disk _ _ _
                Hbody) as [-> _].
    cbn [fst snd] in *. rewrite Hcalls. split; [done |]. split; [by left | done].
Qed.

Lemma swap_partition_has_no_mountpoint_witness :
  let spec := request (2 * GiB) "swap" (VStr "/mnt/swap") in
  let s' := (add_disk_partition_handler no_opts true (VBool false) "sda"
               (start sda spec [])).2 in
  ∃ boot user,
    add_partition_calls (trace s') = add_partition_calls [] ++ boot ++ user
    ∧ (boot = [] ∨ boot = [uefi_partition] ∨ boot = [bios_partition])
    ∧ (user = []
       ∨ ∃ partnum size,
           user = [ {| kw_partnum := partnum;
                       kw_size := size;
                       kw_fstype := VStr "swap";
                       kw_mountpoint := None;
                       kw_flag := None |} ])
    ∧ ((add_disk_partition_try no_opts true (VBool false)
          (start sda spec [])).1 = Ok tt →
       user ≠ []).
Proof.
  apply (swap_partition_has_no_mountpoint no_opts true (VBool false) "sda"
           sda (request (2 * GiB) "swap" (VStr "/mnt/swap")) []).
  vm_compute; reflexivity.
Defined.

(** C3, as the code has it: when the body of the [try] statement raises,
    the handler does not raise; it logs the exception and emits
    'filesystem:add-disk-partition' for the disk, and the disk and the
    request are left as they were when the exception was raised: nothing is
    undone. They are as before the call when no boot partition was needed
    and [add_partition] leaves the disk alone when it raises. *)
Theorem exception_logged_and_signalled
    {D} `{Blockdev D} o efi bootable disk (d : D)
    (spec : gmap string pyval) tr e s1 :
  add_disk_partition_try o efi bootable (start d spec tr) = (Raise e, s1) →
  let run := add_disk_partition_handler o efi bootable disk (start d spec tr) in
  run.1 = Ok VNone
  ∧ world run.2 = world s1
  ∧ (∃ post,
       trace run.2
       = trace s1 ++
         [LogException "Failed to add disk partition" e;
          EmitSignal "filesystem:add-disk-partition" [VStr disk]] ++ post)
  ∧ (needs_boot_partition bootable d = false →
     (∀ kw e' d', add_partition kw d = (Raise e', d') → d' = d) →
     world run.2 = {| aw_disk := d; aw_spec := spec |}).
Proof.
  intros Hbody run. subst run.
  rewrite add_disk_partition_handler_unfold, Hbody. cbn [fst snd world trace].
  split; [done |]. split; [done |]. split; [by eexists |].
  intros Hc Hatomic.
  destruct (add_disk_partition_try_plain_cases o efi bootable d spec tr Hc)
    as [(k & _ & Hrun) | (kw & _ & _ & _ & _ & _ & Hrun)];
    rewrite Hrun in Hbody.
  - by injection Hbody as _ <-.
  - destruct (add_partition kw d) as [[v|e'] d'] eqn:Hadd;
      cbn [fst snd] in Hbody; [done |].
    injection Hbody as _ <-. by rewrite (Hatomic _ _ _ Hadd).
Qed.

Lemma exception_logged_and_signalled_witness :
  let spec := request (2 * GiB) "ext4" (VStr "/") in
  let s1 := (add_disk_partition_try no_opts true (VBool true)
               (start sdc spec [])).2 in
  let run := add_disk_partition_handler no_opts true (VBool true) "sdc"
               (start sdc spec []) in
  run.1 = Ok VNone
  ∧ world run.2 = world s1
  ∧ (∃ post,
       trace run.2
       = trace s1 ++
         [LogException "Failed to add disk partition"
            (PlanningError InsufficientSpace);
          EmitSignal "filesystem:add-disk-partition" [VStr "sdc"]] ++ post)
  ∧ (needs_boot_partition (VBool true) sdc = false →
     (∀ kw e' d', add_partition kw sdc = (Raise e', d') → d' = sdc) →
     world run.2 = {| aw_disk := sdc; aw_spec := spec |}).
Proof.
  apply (exception_logged_and_signalled no_opts true (VBool true) "sdc" sdc
           (request (2 * GiB) "ext4" (VStr "/")) []
           (PlanningError InsufficientSpace)).
  vm_compute; reflexivity.
Defined.

(** C3, where all-or-nothing fails: on an empty gpt disk of 1 GiB, with
    UEFI and a request of 2 GiB, the user's partition does not fit after the
    boot partition was added. The boot partition stays on the disk and the
    request stays adjusted, and after the signal that returns to the entry
    screen the handler goes on to log success and to emit
    'filesystem:show-disk-partition'. *)
Lemma failed_partition_keeps_boot_partition :
  let spec := request (2 * GiB) "ext4" (VStr "/") in
  let run := add_disk_partition_handler no_opts true (VBool false) "sdc"
               (start sdc spec []) in
  trace run.2
  = [AddPartition uefi_partition;
     AddPartition {| kw_partnum := VInt 2;
                     kw_size := VInt (2 * GiB - 512 * 1024 * 1024);
                     kw_fstype := VStr "ext4";
                     kw_mountpoint := Some (VStr "/");
                     kw_flag := None |};
     LogException "Failed to add disk partition"
       (PlanningError InsufficientSpace);
     EmitSignal "filesystem:add-disk-partition" [VStr "sdc"];
     LogInfo "Successfully added partition";
     EmitSignal "filesystem:show-disk-partition" [VStr "sdc"]]
  ∧ SpecDisk.d_partitions (aw_disk (world run.2))
    = [ {| SpecDisk.p_number := VInt 1;
           SpecDisk.p_size := 512 * 1024 * 1024;
           SpecDisk.p_fstype := VStr "fat32";
           SpecDisk.p_mountpoint := VStr "/boot/efi";
           SpecDisk.p_flag := VStr "bios_grub" |} ]
  ∧ aw_disk (world run.2) ≠ sdc
  ∧ aw_spec (world run.2) !! "bytes" = Some (VInt (2 * GiB - 512 * 1024 * 1024))
  ∧ aw_spec (world run.2) !! "partnum" = Some (VInt 2)
  ∧ spec !! "bytes" = Some (VInt (2 * GiB))
  ∧ spec !! "partnum" = Some (VInt 1).
Proof.
  vm_compute. repeat split; try reflexivity. intros [=].
Qed.

(** ** Insufficient space, on the disk model of the spec *)

(** On the disk model of the spec, a partition that is too large or of
    negative size is refused and the disk stays as it was. *)
Lemma disk_add_partition_insufficient kw (d : SpecDisk.disk) size :
  kw_size kw = VInt size →
  size < 0 ∨ SpecDisk.d_freespace d < size →
  SpecDisk.disk_add_partition kw d = (Raise (PlanningError InsufficientSpace), d).
Proof.
  intros Hsz Hbad. unfold SpecDisk.disk_add_partition. rewrite Hsz. cbn.
  assert ((size <? 0) || (SpecDisk.d_freespace d <? size) = true) as ->; [| done].
  apply orb_true_iff. rewrite !Z.ltb_lt. lia.
Qed.

(** Otherwise it is added and its size is reported. *)
Lemma disk_add_partition_fits kw (d : SpecDisk.disk) size :
  kw_size kw = VInt size →
  0 ≤ size ≤ SpecDisk.d_freespace d →
  ∃ d1,
    SpecDisk.disk_add_partition kw d = (Ok (VInt size), d1)
    ∧ SpecDisk.d_freespace d1 = SpecDisk.d_freespace d - size
    ∧ SpecDisk.d_partitions d1
      = SpecDisk.d_partitions d ++ [SpecDisk.new_partition kw size].
Proof.
  intros Hsz Hfit. unfold SpecDisk.disk_add_partition. rewrite Hsz. cbn.
  assert ((size <? 0) || (SpecDisk.d_freespace d <? size) = false) as ->.
  { apply orb_false_iff. rewrite !Z.ltb_ge. lia. }
  by eexists.
Qed.

(** C4, as the code has it with the disk model of the spec: for a request
    with all four entries whose size, less the boot partition that goes
    first, is negative or more than the free space of the disk, the error of
    kind [InsufficientSpace] is raised in the body of the [try] statement
    and logged by the handler, and the user's partition is not added. The
    disk is as before when no boot partition is needed; otherwise it is as
    before or holds the boot partition as its only new partition. *)
Theorem insufficient_space_is_raised
    o efi bootable disk (d : SpecDisk.disk)
    (spec : gmap string pyval) tr b pn ft mp :
  spec !! "bytes" = Some (VInt b) →
  spec !! "partnum" = Some pn →
  spec !! "fstype" = Some ft →
  spec !! "mountpoint" = Some mp →
  b - boot_size o efi bootable d < 0
    ∨ SpecDisk.d_freespace d < b - boot_size o efi bootable d →
  let body := add_disk_partition_try o efi bootable (start d spec tr) in
  let run := add_disk_partition_handler o efi bootable disk (start d spec tr) in
  body.1 = Raise (PlanningError InsufficientSpace)
  ∧ LogException "Failed to add disk partition"
      (PlanningError InsufficientSpace) ∈ trace run.2
  ∧ (needs_boot_partition bootable d = false →
     world run.2 = {| aw_disk := d; aw_spec := spec |})
  ∧ (aw_disk (world run.2) = d
     ∨ needs_boot_partition bootable d = true
       ∧ SpecDisk.d_partitions (aw_disk (world run.2))
         = SpecDisk.d_partitions d ++
           [SpecDisk.new_partition (boot_partition o efi)
              (boot_size o efi bootable d)]).
Proof.
  intros Hb Hpn Hft Hmp Hbad body run.
  assert (Hbody : ∃ s1,
    body = (Raise (PlanningError InsufficientSpace), s1)
    ∧ (needs_boot_partition bootable d = false →
       world s1 = {| aw_disk := d; aw_spec := spec |})
    ∧ (aw_disk (world s1) = d
       ∨ needs_boot_partition bootable d = true
         ∧ SpecDisk.d_partitions (aw_disk (world s1))
           = SpecDisk.d_partitions d ++
             [SpecDisk.new_partition (boot_partition o efi)
                (boot_size o efi bootable d)])).
  { subst body. unfold boot_size in *.
    destruct (needs_boot_partition bootable d) eqn:Hc.
    - set (size := if is_uefi o efi then UEFI_GRUB_SIZE_BYTES
                   else BIOS_GRUB_SIZE_BYTES) in *.
      assert (Hsize : kw_size (boot_partition o efi) = VInt size).
      { unfold boot_partition, size. by destruct (is_uefi o efi). }
      assert (Hpos : 0 ≤ size).
      { unfold size. by destruct (is_uefi o efi). }
      destruct (Z_lt_le_dec (SpecDisk.d_freespace d) size) as [Hsmall | Hfit].
      + eexists. split.
        * apply add_disk_partition_try_boot_raise; [done |].
          apply (disk_add_partition_insufficient _ d size Hsize). by right.
        * split; [done | by left].
      + destruct (disk_add_partition_fits (boot_partition o efi) d size Hsize)
          as (d1 & Hadd & Hfree & Hparts); [done |].
        destruct (add_disk_partition_try_boot_user o efi bootable d spec tr
                    (VInt size) d1 (VInt b) (VInt (b - size)) ft
                    Hc Hadd Hb eq_refl Hft)
          as (user & _ & Ksz & _ & _ & _ & Hrun); [by rewrite Hmp |].
        assert (Huser : add_partition user d1
                        = (Raise (PlanningError InsufficientSpace), d1)).
        { apply (disk_add_partition_insufficient user d1 (b - size) Ksz).
          rewrite Hfree. lia. }
        rewrite Hrun, Huser. cbn [fst snd].
        eexists. split; [done |]. split; [done |].
        right. split; [done |]. done.
    - destruct (add_disk_partition_try_plain o efi bootable d spec tr
                  pn (VInt b) ft Hc Hpn Hb Hft)
        as (kw & _ & Ksz & _ & _ & _ & Hrun); [by rewrite Hmp |].
      assert (Hkw : add_partition kw d
                    = (Raise (PlanningError InsufficientSpace), d)).
      { apply (disk_add_partition_insufficient kw d b Ksz). lia. }
      rewrite Hrun, Hkw. cbn [fst snd].
      eexists. split; [done |]. split; [done | by left]. }
  destruct Hbody as (s1 & Hbody & Hplain & Hdisk).
  subst run. rewrite add_disk_partition_handler_unfold.
  fold body. rewrite Hbody. cbn [fst snd world trace].
  split; [done |]. split; [| done].
  rewrite elem_of_app. right. by left.
Qed.

Lemma insufficient_space_is_raised_witness :
  let spec := request (2 * GiB) "ext4" (VStr "/") in
  let body := add_disk_partition_try no_opts false (VBool false)
                (start sdc spec []) in
  let run := add_disk_partition_handler no_opts false (VBool false) "sdc"
               (start sdc spec []) in
  body.1 = Raise (PlanningError InsufficientSpace)
  ∧ LogException "Failed to add disk partition"
      (PlanningError InsufficientSpace) ∈ trace run.2
  ∧ (needs_boot_partition (VBool false) sdc = false →
     world run.2 = {| aw_disk := sdc; aw_spec := spec |})
  ∧ (aw_disk (world run.2) = sdc
     ∨ needs_boot_partition (VBool false) sdc = true
       ∧ SpecDisk.d_partitions (aw_disk (world run.2))
         = SpecDisk.d_partitions sdc ++
           [SpecDisk.new_partition (boot_partition no_opts false)
              (boot_size no_opts false (VBool false) sdc)]).
Proof.
  apply (insufficient_space_is_raised no_opts false (VBool false) "sdc" sdc
           (request (2 * GiB) "ext4" (VStr "/")) [] (2 * GiB)
           (VInt 1) (VStr "ext4") (VStr "/")).
  - vm_compute; reflexivity.
  - vm_compute; reflexivity.
  - vm_compute; reflexivity.
  - vm_compute; reflexivity.
  - right. vm_compute; reflexivity.
Defined.

(** C4, where the disk does not stay unchanged: on an empty gpt disk of
    1 GiB, with legacy BIOS and a request of 2 GiB, the adjusted size of
    2 GiB less 2 MiB exceeds the free space and [InsufficientSpace] is
    raised, but the disk is not as before: it holds the 2 MiB boot partition
    and has 2 MiB less free space. *)
Lemma insufficient_space_leaves_boot_partition :
  let spec := request (2 * GiB) "ext4" (VStr "/") in
  let run := add_disk_partition_handler no_opts false (VBool false) "sdc"
               (start sdc spec []) in
  SpecDisk.d_freespace sdc < 2 * GiB - 2 * 1024 * 1024
  ∧ (add_disk_partition_try no_opts false (VBool false)
       (start sdc spec [])).1 = Raise (PlanningError InsufficientSpace)
  ∧ aw_disk (world run.2) ≠ sdc
  ∧ SpecDisk.d_partitions (aw_disk (world run.2))
    = [ {| SpecDisk.p_number := VInt 1;
           SpecDisk.p_size := 2 * 1024 * 1024;
           SpecDisk.p_fstype := VNone;
           SpecDisk.p_mountpoint := VNone;
           SpecDisk.p_flag := VStr "bios_grub" |} ]
  ∧ SpecDisk.d_freespace (aw_disk (world run.2)) = GiB - 2 * 1024 * 1024.
Proof.
  vm_compute. repeat split; try reflexivity. intros [=].
Qed.

(** ** Writing the curtin configuration *)

(** C8: for a list of actions, when writing the storage actions raises
    [PermissionError], the handler logs the exception, emits
    'filesystem:error' with the name of the failed write and returns [None];
    the preserved actions are not written. When the storage actions are
    written and writing the preserved actions raises [PermissionError], it
    does the same with the name of that write. In neither case is
    'identity:show' emitted, and no exception leaves the handler. *)
Theorem permission_error_is_signalled
    {action W : Type}
    (write_storage : option (list action) → M W unit)
    (write_preserved : list action → M W unit)
    (preserve_action : action → result action)
    (reset : pyval) (actions : list action) (w : W) (tr : list event) :
  let run := filesystem_handler write_storage write_preserved preserve_action
               reset (Some actions) {| world := w; trace := tr |} in
  (∀ w1,
     write_storage (Some actions) w = (Raise PermissionError, w1) →
     run = (Ok VNone,
            {| world := w1;
               trace := tr ++
                 [LogInfo "Rendering curtin config from user choices";
                  LogException "Failed to write storage actions"
                    PermissionError;
                  EmitSignal "filesystem:error"
                    [VStr "curtin_write_storage_actions"]] |}))
  ∧ (∀ w1 preserved_actions w2,
       write_storage (Some actions) w = (Ok tt, w1) →
       preserved preserve_action (Some actions) = Ok preserved_actions →
       write_preserved preserved_actions w1 = (Raise PermissionError, w2) →
       run = (Ok VNone,
              {| world := w2;
                 trace := tr ++
                   [LogInfo "Rendering curtin config from user choices";
                    LogInfo "Rendering preserved config for post install";
                    LogException "Failed to write preserved actions"
                      PermissionError;
                    EmitSignal "filesystem:error"
                      [VStr "curtin_write_preserved_actions"]] |})).
Proof.
  intros run. subst run. unfold filesystem_handler.
  change (bool_decide (Some actions = None)) with false.
  cbn [andb]. split.
  - intros w1 Hw. run. rewrite Hw. cbn.
    by rewrite <- !app_assoc.
  - intros w1 pl w2 Hw Hp Hw2. run. rewrite Hw. run. rewrite Hp. run.
    rewrite Hw2. cbn. by rewrite <- !app_assoc.
Qed.

Lemma permission_error_is_signalled_witness :
  filesystem_handler write_storage_denied write_denied (λ a, Ok (a + 100)%nat)
    (VBool false) (Some [1; 2]%nat) {| world := []; trace := [] |}
  = (Ok VNone,
     {| world := [];
        trace := [] ++
          [LogInfo "Rendering curtin config from user choices";
           LogException "Failed to write storage actions" PermissionError;
           EmitSignal "filesystem:error"
             [VStr "curtin_write_storage_actions"]] |})
  ∧ filesystem_handler write_storage_ok write_denied (λ a, Ok (a + 100)%nat)
      (VBool false) (Some [1; 2]%nat) {| world := []; trace := [] |}
    = (Ok VNone,
       {| world := [("storage", [1; 2]%nat)];
          trace := [] ++
            [LogInfo "Rendering curtin config from user choices";
             LogInfo "Rendering preserved config for post install";
             LogException "Failed to write preserved actions" PermissionError;
             EmitSignal "filesystem:error"
               [VStr "curtin_write_preserved_actions"]] |}).
Proof.
  split.
  - apply (proj1 (permission_error_is_signalled write_storage_denied
                    write_denied (λ a, Ok (a + 100)%nat) (VBool false)
                    [1; 2]%nat [] [])).
    reflexivity.
  - apply (proj2 (permission_error_is_signalled write_storage_ok
                    write_denied (λ a, Ok (a + 100)%nat) (VBool false)
                    [1; 2]%nat [] [])
             [("storage", [1; 2]%nat)] [101; 102]%nat
             [("storage", [1; 2]%nat)]).
    + reflexivity.
    + reflexivity.
    + reflexivity.
Defined.

(** ** Next and previous disk *)

Lemma list_index_bounds (l : list string) x i :
  list_index l x = Ok i →
  0 ≤ i < len l ∧ l !! Z.to_nat i = Some x.
Proof.
  revert i. induction l as [|y l IH]; intros i; cbn [list_index]; [done |].
  destruct (String.eqb_spec y x) as [-> | Hne].
  - intros [= <-]. unfold len. cbn [length]. split; [lia | done].
  - destruct (list_index l x) as [j|e]; [| done].
    intros [= <-]. destruct (IH j eq_refl) as [Hj Hl].
    unfold len in *. cbn [length]. split; [lia |].
    replace (Z.to_nat (j + 1)) with (S (Z.to_nat j)) by lia. done.
Qed.

(** [index] finds the first position. *)
Lemma list_index_first (l : list string) x i :
  list_index l x = Ok i →
  ∀ j, (j < Z.to_nat i)%nat → l !! j ≠ Some x.
Proof.
  revert i. induction l as [|y l IH]; intros i; cbn [list_index]; [done |].
  destruct (String.eqb_spec y x) as [-> | Hne].
  - intros [= <-] j Hj. cbn in Hj. lia.
  - destruct (list_index l x) as [k|e] eqn:Hk; [| done].
    intros [= <-] [|j] Hj; cbn; [congruence |].
    destruct (list_index_bounds l x k Hk) as [Hb _].
    apply (IH k eq_refl). lia.
Qed.

Lemma list_index_elem_of (l : list string) x :
  x ∈ l → ∃ i, list_index l x = Ok i.
Proof.
  induction l as [|y l IH]; [by intros ?%elem_of_nil |].
  intros Hin. cbn [list_index].
  destruct (String.eqb_spec y x) as [-> | Hne]; [by eexists |].
  apply elem_of_cons in Hin as [-> | Hin]; [done |].
  destruct (IH Hin) as [i ->]. by eexists.
Qed.

Lemma list_index_not_elem_of (l : list string) x :
  x ∉ l → list_index l x = Raise ValueError.
Proof.
  induction l as [|y l IH]; [done |].
  intros Hnin. apply not_elem_of_cons in Hnin as [Hne Hnin].
  cbn [list_index]. destruct (String.eqb_spec y x) as [-> | _]; [done |].
  by rewrite (IH Hnin).
Qed.

Lemma list_getitem_in_range {A} (l : list A) i :
  0 ≤ i < len l →
  ∃ a, l !! Z.to_nat i = Some a ∧ list_getitem l i = Ok a.
Proof.
  unfold len. intros Hi. unfold list_getitem.
  destruct (i <? 0) eqn:Hneg; [apply Z.ltb_lt in Hneg; lia |].
  rewrite Hneg. cbn [orb].
  destruct (Z.of_nat (length l) <=? i) eqn:Hge; [apply Z.leb_le in Hge; lia |].
  destruct (lookup_lt_is_Some_2 l (Z.to_nat i)) as [a Ha]; [lia |].
  exists a. by rewrite Ha.
Qed.

(** C7: for a current identifier that is among the available ones, at
    index [i] (its first position, as [index] gives it), the next-disk
    handler shows [available[(i + 1) mod length]] and the previous-disk
    handler shows [available[(i - 1 + length) mod length]]: next of the last
    element is the first and previous of the first is the last. For a
    current identifier that is not among them both raise [ValueError], the
    not-found error of [index], and show nothing. *)
Theorem disk_cursor_wraps {W} (available : list string) (curr : string)
    (s : ctl W) :
  (curr ∈ available →
   ∃ i next prev,
     list_index available curr = Ok i
     ∧ 0 ≤ i < len available
     ∧ available !! Z.to_nat i = Some curr
     ∧ (∀ j, (j < Z.to_nat i)%nat → available !! j ≠ Some curr)
     ∧ available !! Z.to_nat ((i + 1) mod len available) = Some next
     ∧ available !! Z.to_nat ((i - 1 + len available) mod len available)
       = Some prev
     ∧ show_disk_information_next available curr s
       = (Ok VNone,
          {| world := world s;
             trace := trace s ++ [ShowDiskInformation next] |})
     ∧ show_disk_information_prev available curr s
       = (Ok VNone,
          {| world := world s;
             trace := trace s ++ [ShowDiskInformation prev] |})
     ∧ (i = len available - 1 → available !! 0%nat = Some next)
     ∧ (i = 0 → available !! (length available - 1)%nat = Some prev))
  ∧ (curr ∉ available →
     show_disk_information_next available curr s = (Raise ValueError, s)
     ∧ show_disk_information_prev available curr s = (Raise ValueError, s)).
Proof.
  split.
  - intros Hin.
    destruct (list_index_elem_of available curr Hin) as [i Hidx].
    destruct (list_index_bounds available curr i Hidx) as [Hi Hcurr].
    assert (Hn : 0 < len available) by lia.
    assert (Hprev_eq : (i - 1) mod len available
                       = (i - 1 + len available) mod len available).
    { rewrite <- (Z_mod_plus_full (i - 1) 1 (len available)). f_equal. lia. }
    destruct (list_getitem_in_range available ((i + 1) mod len available))
      as (next & Hnext & Hgn); [by apply Z.mod_pos_bound |].
    destruct (list_getitem_in_range available ((i - 1) mod len available))
      as (prev & Hprev & Hgp); [by apply Z.mod_pos_bound |].
    exists i, next, prev.
    assert (Hnz : (len available =? 0) = false) by (apply Z.eqb_neq; lia).
    repeat split; try done; try lia.
    + by apply list_index_first.
    + by rewrite <- Hprev_eq.
    + unfold show_disk_information_next, py_mod. run.
      by rewrite Hidx, Hnz, Hgn.
    + unfold show_disk_information_prev, py_mod. run.
      by rewrite Hidx, Hnz, Hgp.
    + intros ->. rewrite <- Hnext. f_equal.
      replace (len available - 1 + 1) with (len available) by lia.
      by rewrite Z_mod_same_full.
    + intros ->. rewrite <- Hprev. f_equal.
      rewrite Hprev_eq.
      rewrite Z.mod_small by lia. unfold len. lia.
  - intros Hnin. unfold show_disk_information_next, show_disk_information_prev.
    run. by rewrite (list_index_not_elem_of available curr Hnin).
Qed.

Lemma disk_cursor_wraps_witness :
  (∃ i next prev,
     list_index ["sda"; "sdb"; "sdc"] "sdc" = Ok i
     ∧ 0 ≤ i < len ["sda"; "sdb"; "sdc"]
     ∧ ["sda"; "sdb"; "sdc"] !! Z.to_nat i = Some "sdc"
     ∧ (∀ j, (j < Z.to_nat i)%nat → ["sda"; "sdb"; "sdc"] !! j ≠ Some "sdc")
     ∧ ["sda"; "sdb"; "sdc"] !! Z.to_nat ((i + 1) mod len ["sda"; "sdb"; "sdc"])
       = Some next
     ∧ ["sda"; "sdb"; "sdc"]
         !! Z.to_nat ((i - 1 + len ["sda"; "sdb"; "sdc"])
                      mod len ["sda"; "sdb"; "sdc"])
       = Some prev
     ∧ show_disk_information_next ["sda"; "sdb"; "sdc"] "sdc"
         {| world := tt; trace := [] |}
       = (Ok VNone,
          {| world := tt; trace := [] ++ [ShowDiskInformation next] |})
     ∧ show_disk_information_prev ["sda"; "sdb"; "sdc"] "sdc"
         {| world := tt; trace := [] |}
       = (Ok VNone,
          {| world := tt; trace := [] ++ [ShowDiskInformation prev] |})
     ∧ (i = len ["sda"; "sdb"; "sdc"] - 1 →
        ["sda"; "sdb"; "sdc"] !! 0%nat = Some next)
     ∧ (i = 0 →
        ["sda"; "sdb"; "sdc"] !! (length ["sda"; "sdb"; "sdc"] - 1)%nat
        = Some prev))
  ∧ show_disk_information_next ["sda"; "sdb"; "sdc"] "sdz"
      {| world := tt; trace := [] |}
    = (Raise ValueError, {| world := tt; trace := [] |})
  ∧ show_disk_information_prev ["sda"; "sdb"; "sdc"] "sdz"
      {| world := tt; trace := [] |}
    = (Raise ValueError, {| world := tt; trace := [] |}).
Proof.
  split.
  - apply (proj1 (disk_cursor_wraps ["sda"; "sdb"; "sdc"] "sdc"
                    {| world := tt; trace := [] |})).
    apply elem_of_cons; right. apply elem_of_cons; right.
    apply elem_of_cons; by left.
  - apply (proj2 (disk_cursor_wraps ["sda"; "sdb"; "sdc"] "sdz"
                    {| world := tt; trace := [] |})).
    intros Hin. repeat (apply elem_of_cons in Hin as [[=] | Hin]).
    by apply elem_of_nil in Hin.
Defined.

(** The example of the spec: with sda, sdb and sdc available and sdc
    current, next shows sda and previous shows sdb. *)
Example disk_cursor_example :
  show_disk_information_next ["sda"; "sdb"; "sdc"] "sdc"
    {| world := tt; trace := [] |}
  = (Ok VNone, {| world := tt; trace := [ShowDiskInformation "sda"] |})
  ∧ show_disk_information_prev ["sda"; "sdb"; "sdc"] "sdc"
      {| world := tt; trace := [] |}
    = (Ok VNone, {| world := tt; trace := [ShowDiskInformation "sdb"] |}).
Proof. split; reflexivity. Qed.

(** ** The WSL configuration base model *)

(** The keyword arguments [apply_settings] builds are accepted by the
    constructor. *)
Lemma WSLConfigurationBase_init_ok (a b c e : pyval) :
  WSL.WSLConfigurationBase_init
    (<["network_generateresolvconf" := e]>
       (<["network_generatehosts" := c]>
          (<["automount_options" := b]>
             (<["automount_root" := a]> (∅ : gmap string pyval)))))
  = Ok {| WSL.automount_root := a;
          WSL.automount_options := b;
          WSL.network_generatehosts := c;
          WSL.network_generateresolvconf := e |}.
Proof.
  unfold WSL.WSLConfigurationBase_init. by simplify_map_eq.
Qed.

(** C10: a new model has no configuration, and after [apply_settings] on a
    result with the four attributes the [wslconfbase] property is the record
    of exactly these four values, whatever the model held before and
    whatever else the result carries; the call returns [None]. *)
Theorem wslconfbase_after_apply_settings
    (result : gmap string pyval) (self : WSL.WSLConfigurationBaseModel)
    (a b c e : pyval) :
  result !! "automount_root" = Some a →
  result !! "automount_options" = Some b →
  result !! "network_generatehosts" = Some c →
  result !! "network_generateresolvconf" = Some e →
  WSL.wslconfbase WSL.init = None
  ∧ (WSL.apply_settings result self).1 = Ok VNone
  ∧ WSL.wslconfbase (WSL.apply_settings result self).2
    = Some {| WSL.automount_root := a;
              WSL.automount_options := b;
              WSL.network_generatehosts := c;
              WSL.network_generateresolvconf := e |}
  ∧ (WSL.apply_settings result self).2
    = {| WSL._wslconfbase :=
           Some {| WSL.automount_root := a;
                   WSL.automount_options := b;
                   WSL.network_generatehosts := c;
                   WSL.network_generateresolvconf := e |} |}.
Proof.
  intros Ha Hb Hc He. split; [done |].
  unfold WSL.apply_settings, WSL.getattr. run.
  rewrite Ha, Hb, Hc, He, WSLConfigurationBase_init_ok. done.
Qed.

Lemma wslconfbase_after_apply_settings_witness :
  let result : gmap string pyval :=
    <["hostname" := VStr "wsl"]>
      (<["automount_root" := VStr "/mnt/"]>
         (<["automount_options" := VStr "metadata"]>
            (<["network_generatehosts" := VBool true]>
               (<["network_generateresolvconf" := VBool false]> ∅)))) in
  let self := (WSL.apply_settings
                 (<["automount_root" := VStr "/"]>
                    (<["automount_options" := VStr ""]>
                       (<["network_generatehosts" := VBool false]>
                          (<["network_generateresolvconf" := VBool false]> ∅))))
                 WSL.init).2 in
  WSL.wslconfbase WSL.init = None
  ∧ (WSL.apply_settings result self).1 = Ok VNone
  ∧ WSL.wslconfbase (WSL.apply_settings result self).2
    = Some {| WSL.automount_root := VStr "/mnt/";
              WSL.automount_options := VStr "metadata";
              WSL.network_generatehosts := VBool true;
              WSL.network_generateresolvconf := VBool false |}
  ∧ (WSL.apply_settings result self).2
    = {| WSL._wslconfbase :=
           Some {| WSL.automount_root := VStr "/mnt/";
                   WSL.automount_options := VStr "metadata";
                   WSL.network_generatehosts := VBool true;
                   WSL.network_generateresolvconf := VBool false |} |}.
Proof.
  intros result self.
  apply (wslconfbase_after_apply_settings result self).
  - vm_compute; reflexivity.
  - vm_compute; reflexivity.
  - vm_compute; reflexivity.
  - vm_compute; reflexivity.
Defined.


(** * Further properties *)

(** ** The partition handler: what it always does *)


Lemma logged_exceptions_app tr1 tr2 :
  logged_exceptions (tr1 ++ tr2)
  = logged_exceptions tr1 ++ logged_exceptions tr2.
Proof. apply omap_app. Qed.



Lemma add_partition_calls_fmap (calls : list add_partition_kwargs) :
  add_partition_calls (AddPartition <$> calls) = calls.
Proof. induction calls as [|kw calls IH]; [done |]. cbn. by f_equal. Qed.

(** The body of the [try] statement only adds [add_partition] calls to the
    trace: at most one when no boot partition is needed, at most two
    otherwise, and then the first one is the boot partition. *)
Lemma add_disk_partition_try_frame
    {D} `{Blockdev D} o efi bootable (d : D) (spec : gmap string pyval) tr :
  ∃ calls,
    trace (add_disk_partition_try o efi bootable (start d spec tr)).2
    = tr ++ (AddPartition <$> calls)
    ∧ (if needs_boot_partition bootable d
       then ∃ rest, calls = boot_partition o efi :: rest
                    ∧ (length rest ≤ 1)%nat
                    ∧ ∀ kw, kw ∈ rest → kw_flag kw = None
       else (length calls ≤ 1)%nat ∧ ∀ kw, kw ∈ calls → kw_flag kw = None).
Proof.
  assert (Hplain : ∀ b' d' spec' tr',
    needs_boot_partition b' d' = false →
    ∃ calls,
      trace (add_disk_partition_try o efi b' (start d' spec' tr')).2
      = tr' ++ (AddPartition <$> calls)
      ∧ (length calls ≤ 1)%nat ∧ ∀ kw, kw ∈ calls → kw_flag kw = None).
  { intros b' d' spec' tr' Hc'.
    destruct (add_disk_partition_try_plain_cases o efi b' d' spec' tr' Hc')
      as [(k & _ & ->) | (kw & _ & _ & _ & Kfl & _ & ->)].
    - exists []. cbn. rewrite app_nil_r. repeat split; [lia |].
      by intros kw ?%elem_of_nil.
    - exists [kw]. cbn. repeat split; [lia |].
      by intros kw' ->%list_elem_of_singleton. }
  destruct (needs_boot_partition bootable d) eqn:Hc; [| by apply Hplain].
  destruct (add_disk_partition_try_boot_cases o efi bootable d spec tr Hc)
    as [(e & d1 & ->) | (sa & d1 & bytes & bytes' & _ & _ & _ & ->)].
  - exists [boot_partition o efi]. cbn. split; [done |].
    exists []. cbn. repeat split; [lia |]. by intros kw ?%elem_of_nil.
  - destruct (Hplain (VBool true) d1
                (<["partnum" := VInt 2]> (<["bytes" := bytes']> spec))
                (tr ++ [AddPartition (boot_partition o efi)]) eq_refl)
      as (rest & -> & Hlen & Hfl).
    exists (boot_partition o efi :: rest). cbn.
    rewrite <- app_assoc. split; [done |]. by exists rest.
Qed.


(** X2: the partition handler only appends to the trace, and it calls
    [add_partition] at most twice: at most once when no boot partition is
    needed. *)
Theorem add_disk_partition_handler_at_most_two_calls
    {D} `{Blockdev D} o efi bootable disk (d : D)
    (spec : gmap string pyval) tr :
  let run := add_disk_partition_handler o efi bootable disk (start d spec tr) in
  ∃ new calls,
    trace run.2 = tr ++ new
    ∧ add_partition_calls new = calls
    ∧ (length calls ≤ 2)%nat
    ∧ (bootable ≠ VBool false ∨ parttype d ≠ VStr "gpt"
         ∨ num_partitions d ≠ 0%nat →
       (length calls ≤ 1)%nat).
Proof.
  intros run. subst run.
  rewrite add_disk_partition_handler_unfold.
  destruct (add_disk_partition_try_frame o efi bootable d spec tr)
    as (calls & Htr & Hcalls).
  assert (Hlen : (length calls ≤ 2)%nat
                 ∧ (needs_boot_partition bootable d = false →
                    (length calls ≤ 1)%nat)).
  { destruct (needs_boot_partition bootable d).
    - destruct Hcalls as (rest & -> & Hl & _). cbn. split; [lia | done].
    - destruct Hcalls as [Hl _]. split; [lia | done]. }
  destruct Hlen as [Hlen2 Hlen1].
  assert (Hno : bootable ≠ VBool false ∨ parttype d ≠ VStr "gpt"
                  ∨ num_partitions d ≠ 0%nat →
                needs_boot_partition bootable d = false).
  { intros Hc. destruct (needs_boot_partition bootable d) eqn:Hn; [| done].
    apply needs_boot_partition_true in Hn as (Hb & Hp & Hz).
    by destruct Hc as [? | [? | ?]]. }
  destruct (add_disk_partition_try o efi bootable (start d spec tr))
    as [[[]|e] s1]; cbn [fst snd trace] in *; rewrite Htr, <- app_assoc;
    eexists _, calls; (split; [done |]);
    rewrite add_partition_calls_app, add_partition_calls_fmap; cbn;
    rewrite app_nil_r; auto.
Qed.

(** X3: the first [add_partition] call of the handler is a boot partition
    (number 1, flag bios_grub) exactly when [bootable()] returned [False],
    the partition table is gpt and the disk has no partition; every other
    call carries no flag. *)
Theorem boot_partition_first_iff
    {D} `{Blockdev D} o efi bootable disk (d : D)
    (spec : gmap string pyval) tr :
  let run := add_disk_partition_handler o efi bootable disk (start d spec tr) in
  ∃ calls,
    add_partition_calls (trace run.2) = add_partition_calls tr ++ calls
    ∧ (bootable = VBool false ∧ parttype d = VStr "gpt"
         ∧ num_partitions d = 0%nat
       ↔ ∃ first rest,
           calls = first :: rest
           ∧ kw_partnum first = VInt 1
           ∧ kw_flag first = Some (VStr "bios_grub"))
    ∧ (∀ kw, kw ∈ tail calls → kw_flag kw = None).
Proof.
  intros run. subst run.
  destruct (add_disk_partition_try_frame o efi bootable d spec tr)
    as (calls & Htr & Hcalls).
  exists calls.
  destruct (add_disk_partition_try o efi bootable (start d spec tr))
    as [r s1] eqn:Hbody.
  destruct (add_disk_partition_handler_calls o efi bootable disk _ _ _ Hbody)
    as [-> _].
  cbn [snd] in Htr.
  rewrite Htr, add_partition_calls_app, add_partition_calls_fmap.
  split; [done |].
  rewrite <- needs_boot_partition_true.
  destruct (needs_boot_partition bootable d).
  - destruct Hcalls as (rest & -> & _ & Hfl). split; [| done].
    split; [intros _ | done].
    exists (boot_partition o efi), rest. unfold boot_partition.
    by destruct (is_uefi o efi).
  - destruct Hcalls as [Hlen Hfl]. split.
    + split; [done |]. intros (first & rest & -> & _ & Hflag).
      rewrite (Hfl first) in Hflag; [done | by left].
    + intros kw Hin. apply Hfl. destruct calls; [done | by right].
Qed.

(** ** The partition handler: incomplete and ill-typed requests *)

(** X4: when no boot partition is needed and the request lacks 'fstype',
    'partnum' or 'bytes', the handler calls [add_partition] not at all and
    leaves the disk and the request as they were; it logs the [KeyError] of
    a key the request lacks. *)
Theorem missing_key_adds_no_partition
    {D} `{Blockdev D} o efi bootable disk (d : D)
    (spec : gmap string pyval) tr k :
  needs_boot_partition bootable d = false →
  k ∈ ["fstype"; "partnum"; "bytes"] →
  spec !! k = None →
  let run := add_disk_partition_handler o efi bootable disk (start d spec tr) in
  world run.2 = {| aw_disk := d; aw_spec := spec |}
  ∧ add_partition_calls (trace run.2) = add_partition_calls tr
  ∧ ∃ k', spec !! k' = None
          ∧ logged_exceptions (trace run.2)
            = logged_exceptions tr ++ [KeyError k'].
Proof.
  intros Hc Hk Hnone run. subst run.
  rewrite add_disk_partition_handler_unfold.
  destruct (add_disk_partition_try_plain_cases o efi bootable d spec tr Hc)
    as [(k' & Hk' & ->) | (kw & Kpn & Ksz & Kft & _)].
  - cbn [fst snd start world trace].
    rewrite add_partition_calls_app, logged_exceptions_app. cbn.
    rewrite app_nil_r. split; [done |]. split; [done |]. by exists k'.
  - exfalso. repeat (apply elem_of_cons in Hk as [-> | Hk]); try congruence.
    by apply elem_of_nil in Hk.
Qed.

Lemma missing_key_adds_no_partition_witness :
  let spec : gmap string pyval :=
    <["fstype" := VStr "ext4"]> (<["partnum" := VInt 1]> ∅) in
  let run := add_disk_partition_handler no_opts true (VBool true) "sda"
               (start sda spec []) in
  world run.2 = {| aw_disk := sda; aw_spec := spec |}
  ∧ add_partition_calls (trace run.2) = add_partition_calls []
  ∧ ∃ k', spec !! k' = None
          ∧ logged_exceptions (trace run.2)
            = logged_exceptions [] ++ [KeyError k'].
Proof.
  intros spec.
  apply (missing_key_adds_no_partition no_opts true (VBool true) "sda" sda
           spec [] "bytes").
  - reflexivity.
  - apply elem_of_cons; right. apply elem_of_cons; right.
    apply elem_of_cons; by left.
  - vm_compute; reflexivity.
Defined.

(** X5: the request needs a 'mountpoint' entry exactly when its filesystem
    type is not swap. Without that entry and with no boot partition needed,
    a swap request is passed to [add_partition] as it is, and the only
    exception that can be logged is one [add_partition] raised; any other
    request fails with [KeyError] 'mountpoint' before [add_partition] is
    called, and the disk and the request stay as they were. *)
Theorem mountpoint_needed_unless_swap
    {D} `{Blockdev D} o efi bootable disk (d : D)
    (spec : gmap string pyval) tr pn sz ft :
  needs_boot_partition bootable d = false →
  spec !! "partnum" = Some pn →
  spec !! "bytes" = Some sz →
  spec !! "fstype" = Some ft →
  spec !! "mountpoint" = None →
  let run := add_disk_partition_handler o efi bootable disk (start d spec tr) in
  let swap := {| kw_partnum := pn; kw_size := sz; kw_fstype := ft;
                 kw_mountpoint := None; kw_flag := None |} in
  if in_strs ft ["swap"]
  then add_partition_calls (trace run.2) = add_partition_calls tr ++ [swap]
       ∧ aw_disk (world run.2) = (add_partition swap d).2
       ∧ logged_exceptions (trace run.2)
         = logged_exceptions tr ++
           match (add_partition swap d).1 with
           | Raise e => [e]
           | Ok _ => []
           end
  else add_partition_calls (trace run.2) = add_partition_calls tr
       ∧ world run.2 = {| aw_disk := d; aw_spec := spec |}
       ∧ logged_exceptions (trace run.2)
         = logged_exceptions tr ++ [KeyError "mountpoint"].
Proof.
  intros Hc Hpn Hsz Hft Hmp run swap. subst run swap.
  rewrite add_disk_partition_handler_unfold.
  destruct (in_strs ft ["swap"]) eqn:Hswap.
  - destruct (add_disk_partition_try_plain o efi bootable d spec tr pn sz ft
                Hc Hpn Hsz Hft)
      as (kw & Kpn & Ksz & Kft & Kfl & Kmp & ->);
      [rewrite Hswap; intros [=] |].
    rewrite Hswap in Kmp.
    assert (kw = {| kw_partnum := pn; kw_size := sz; kw_fstype := ft;
                    kw_mountpoint := None; kw_flag := None |}) as ->.
    { destruct kw; cbn in *. by subst. }
    match goal with
    | |- context [add_partition ?k d] =>
        destruct (add_partition k d) as [[v|e] d']
    end; cbn [fst snd start world trace aw_disk];
      rewrite add_partition_calls_app, (add_partition_calls_app tr),
        logged_exceptions_app, (logged_exceptions_app tr); cbn;
      by rewrite ?app_nil_r.
  - assert (add_disk_partition_try o efi bootable (start d spec tr)
            = (Raise (KeyError "mountpoint"), start d spec tr)) as ->.
    { unfold add_disk_partition_try, start. run. rewrite Hc. run.
      rewrite Hft, Hswap. run. by rewrite Hpn, Hsz, Hft, Hmp. }
    cbn [fst snd start world trace].
    rewrite add_partition_calls_app, logged_exceptions_app. cbn.
    by rewrite app_nil_r.
Qed.

Lemma mountpoint_needed_unless_swap_witness :
  let spec : gmap string pyval :=
    <["fstype" := VStr "swap"]>
      (<["partnum" := VInt 3]> (<["bytes" := VInt GiB]> ∅)) in
  let run := add_disk_partition_handler no_opts true (VBool true) "sda"
               (start sda spec []) in
  let swap := {| kw_partnum := VInt 3; kw_size := VInt GiB;
                 kw_fstype := VStr "swap";
                 kw_mountpoint := None; kw_flag := None |} in
  if in_strs (VStr "swap") ["swap"]
  then add_partition_calls (trace run.2) = add_partition_calls [] ++ [swap]
       ∧ aw_disk (world run.2) = (add_partition swap sda).2
       ∧ logged_exceptions (trace run.2)
         = logged_exceptions [] ++
           match (add_partition swap sda).1 with
           | Raise e => [e]
           | Ok _ => []
           end
  else add_partition_calls (trace run.2) = add_partition_calls []
       ∧ world run.2 = {| aw_disk := sda; aw_spec := spec |}
       ∧ logged_exceptions (trace run.2)
         = logged_exceptions [] ++ [KeyError "mountpoint"].
Proof.
  intros spec.
  apply (mountpoint_needed_unless_swap no_opts true (VBool true) "sda" sda
           spec [] (VInt 3) (VInt GiB) (VStr "swap")).
  - reflexivity.
  - vm_compute; reflexivity.
  - vm_compute; reflexivity.
  - vm_compute; reflexivity.
  - vm_compute; reflexivity.
Defined.

(** X6: when a boot partition is needed and adding it raises, or the
    request has no 'bytes' entry, or its 'bytes' entry is not a number (the
    subtraction raises [TypeError]), the handler asks for the boot partition
    only: the user's partition is never requested, the request dictionary
    is not changed, the disk is as the boot partition call left it, and the
    exception is the one logged. *)
Theorem failure_before_adjustment_keeps_request
    {D} `{Blockdev D} o efi disk (d d1 : D)
    (spec : gmap string pyval) tr r e :
  parttype d = VStr "gpt" →
  num_partitions d = 0%nat →
  add_partition (if is_uefi o efi then uefi_partition else bios_partition) d
  = (r, d1) →
  match r with
  | Raise e' => Raise e'
  | Ok size_added =>
      match spec !! "bytes" with
      | Some bytes => py_sub bytes size_added
      | None => Raise (KeyError "bytes")
      end
  end = Raise e →
  let run := add_disk_partition_handler o efi (VBool false) disk
               (start d spec tr) in
  add_partition_calls (trace run.2)
  = add_partition_calls tr ++
    [if is_uefi o efi then uefi_partition else bios_partition]
  ∧ world run.2 = {| aw_disk := d1; aw_spec := spec |}
  ∧ logged_exceptions (trace run.2) = logged_exceptions tr ++ [e].
Proof.
  intros Hp Hn Hadd Hr run. subst run.
  assert (Hc : needs_boot_partition (VBool false) d = true)
    by (by apply needs_boot_partition_true).
  fold (boot_partition o efi) in *.
  assert (add_disk_partition_try o efi (VBool false) (start d spec tr)
          = (Raise e, start d1 spec
                        (tr ++ [AddPartition (boot_partition o efi)]))) as Hrun.
  { destruct r as [sa|e'].
    - by apply add_disk_partition_try_boot_adjust_raise with (size_added := sa).
    - injection Hr as ->. by apply add_disk_partition_try_boot_raise. }
  rewrite add_disk_partition_handler_unfold, Hrun.
  cbn [fst snd start world trace].
  rewrite !add_partition_calls_app, !logged_exceptions_app. cbn.
  by rewrite !app_nil_r.
Qed.

Lemma failure_before_adjustment_keeps_request_witness :
  let spec := <["bytes" := VStr "10G"]> (request 0 "ext4" (VStr "/")) in
  let run := add_disk_partition_handler no_opts false (VBool false) "sda"
               (start sda spec []) in
  add_partition_calls (trace run.2)
  = add_partition_calls [] ++
    [if is_uefi no_opts false then uefi_partition else bios_partition]
  ∧ world run.2
    = {| aw_disk := (add_partition bios_partition sda).2; aw_spec := spec |}
  ∧ logged_exceptions (trace run.2) = logged_exceptions [] ++ [TypeError].
Proof.
  intros spec.
  apply (failure_before_adjustment_keeps_request no_opts false "sda" sda
           (add_partition bios_partition sda).2 spec []
           (add_partition bios_partition sda).1 TypeError).
  - reflexivity.
  - reflexivity.
  - reflexivity.
  - vm_compute; reflexivity.
Defined.

(** X7: which boot partition the handler adds first: the 512 MiB fat32
    partition mounted at /boot/efi when both the dry-run and the uefi
    options are set or /sys/firmware/efi exists, and the 2 MiB partition
    without filesystem otherwise. The uefi option alone, without dry-run,
    changes nothing. *)
Theorem boot_partition_choice
    {D} `{Blockdev D} o efi disk (d : D) (spec : gmap string pyval) tr :
  parttype d = VStr "gpt" →
  num_partitions d = 0%nat →
  let run := add_disk_partition_handler o efi (VBool false) disk
               (start d spec tr) in
  ∃ first rest,
    add_partition_calls (trace run.2)
    = add_partition_calls tr ++ first :: rest
    ∧ (if (dry_run o && uefi o) || efi
       then kw_size first = VInt (512 * 1024 * 1024)
            ∧ kw_fstype first = VStr "fat32"
            ∧ kw_mountpoint first = Some (VStr "/boot/efi")
       else kw_size first = VInt (2 * 1024 * 1024)
            ∧ kw_fstype first = VNone
            ∧ kw_mountpoint first = None)
    ∧ (dry_run o = false → is_uefi o efi = efi).
Proof.
  intros Hp Hn run. subst run.
  assert (Hc : needs_boot_partition (VBool false) d = true)
    by (by apply needs_boot_partition_true).
  destruct (add_disk_partition_try_frame o efi (VBool false) d spec tr)
    as (calls & Htr & Hcalls).
  rewrite Hc in Hcalls. destruct Hcalls as (rest & -> & _).
  exists (boot_partition o efi), rest.
  destruct (add_disk_partition_try o efi (VBool false) (start d spec tr))
    as [r s1] eqn:Hbody.
  destruct (add_disk_partition_handler_calls o efi (VBool false) disk _ _ _
              Hbody) as [-> _].
  cbn [snd] in Htr.
  rewrite Htr, add_partition_calls_app, add_partition_calls_fmap.
  split; [done |].
  unfold boot_partition, is_uefi.
  destruct (dry_run o), (uefi o), efi; cbn; done.
Qed.

Lemma boot_partition_choice_witness :
  let o := {| dry_run := false; uefi := true |} in
  let run := add_disk_partition_handler o false (VBool false) "sda"
               (start sda (request (10 * GiB) "ext4" (VStr "/")) []) in
  ∃ first rest,
    add_partition_calls (trace run.2)
    = add_partition_calls [] ++ first :: rest
    ∧ (if (dry_run o && uefi o) || false
       then kw_size first = VInt (512 * 1024 * 1024)
            ∧ kw_fstype first = VStr "fat32"
            ∧ kw_mountpoint first = Some (VStr "/boot/efi")
       else kw_size first = VInt (2 * 1024 * 1024)
            ∧ kw_fstype first = VNone
            ∧ kw_mountpoint first = None)
    ∧ (dry_run o = false → is_uefi o false = false).
Proof.
  intros o.
  apply (boot_partition_choice o false "sda" sda
           (request (10 * GiB) "ext4" (VStr "/")) []).
  - reflexivity.
  - reflexivity.
Defined.

(** X19: for a request whose filesystem type is not swap (the comparison
    is with the exact string 'swap'), the call for the user's partition
    passes the mount point of the request as it is, also when it is [None],
    together with the request's filesystem type and no flag; the call is
    made whenever the body of the [try] statement ends without an
    exception. *)
Theorem other_partition_keeps_mountpoint
    {D} `{Blockdev D} o efi bootable disk (d : D)
    (spec : gmap string pyval) tr ft mp :
  spec !! "fstype" = Some ft →
  in_strs ft ["swap"] = false →
  spec !! "mountpoint" = Some mp →
  let s' := (add_disk_partition_handler o efi bootable disk
               (start d spec tr)).2 in
  ∃ boot user,
    add_partition_calls (trace s') = add_partition_calls tr ++ boot ++ user
    ∧ (boot = [] ∨ boot = [uefi_partition] ∨ boot = [bios_partition])
    ∧ (user = []
       ∨ ∃ partnum size,
           user = [ {| kw_partnum := partnum;
                       kw_size := size;
                       kw_fstype := ft;
                       kw_mountpoint := Some mp;
                       kw_flag := None |} ])
    ∧ ((add_disk_partition_try o efi bootable (start d spec tr)).1 = Ok tt →
       user ≠ []).
Proof.
  intros Hft Hswap Hmp s'. subst s'.
  assert (Hplain : ∀ b' d' spec' tr',
    needs_boot_partition b' d' = false →
    spec' !! "fstype" = Some ft →
    spec' !! "mountpoint" = Some mp →
    ∃ user,
      add_partition_calls
        (trace (add_disk_partition_try o efi b' (start d' spec' tr')).2)
      = add_partition_calls tr' ++ user
      ∧ (user = []
         ∨ ∃ partnum size,
             user = [ {| kw_partnum := partnum;
                         kw_size := size;
                         kw_fstype := ft;
                         kw_mountpoint := Some mp;
                         kw_flag := None |} ])
      ∧ ((add_disk_partition_try o efi b' (start d' spec' tr')).1 = Ok tt →
         user ≠ [])).
  { intros b' d' spec' tr' Hc' Hft' Hmp'.
    destruct (add_disk_partition_try_plain_cases o efi b' d' spec' tr' Hc')
      as [(k & _ & ->) | (kw & _ & _ & Kft & Kfl & Kmp & ->)].
    - exists []. cbn. rewrite app_nil_r. split; [done |]. split; [by left |].
      intros [=].
    - exists [kw]. cbn [snd start trace]. rewrite add_partition_calls_app.
      split; [done |]. split; [| done].
      right. exists (kw_partnum kw), (kw_size kw).
      rewrite Hft' in Kft. injection Kft as Kft.
      rewrite <- Kft, Hswap, Hmp' in Kmp.
      destruct kw; cbn in *. by subst. }
  destruct (needs_boot_partition bootable d) eqn:Hc.
  - destruct (add_disk_partition_try_boot_cases o efi bootable d spec tr Hc)
      as [(e & d1 & Hrun) | (sa & d1 & bytes & bytes' & _ & _ & _ & Hrun)].
    + exists [boot_partition o efi], [].
      destruct (add_disk_partition_handler_calls o efi bootable disk _ _ _ Hrun)
        as [-> _].
      rewrite Hrun. cbn [fst snd start trace].
      rewrite add_partition_calls_app. split; [done |].
      split; [| split; [by left | intros [=]]].
      unfold boot_partition. destruct (is_uefi o efi); auto.
    + destruct (Hplain (VBool true) d1
                  (<["partnum" := VInt 2]> (<["bytes" := bytes']> spec))
                  (tr ++ [AddPartition (boot_partition o efi)]) eq_refl)
        as (user & Hcalls & Huser & Hok);
        [by simplify_map_eq | by simplify_map_eq |].
      exists [boot_partition o efi], user.
      rewrite <- Hrun in Hcalls, Hok.
      destruct (add_disk_partition_try o efi bootable (start d spec tr))
        as [r s1] eqn:Hbody.
      destruct (add_disk_partition_handler_calls o efi bootable disk _ _ _
                  Hbody) as [-> _].
      cbn [fst snd] in *. rewrite Hcalls, add_partition_calls_app.
      split; [by rewrite <- app_assoc |].
      split; [| done].
      unfold boot_partition. destruct (is_uefi o efi); auto.
  - destruct (Hplain bootable d spec tr Hc Hft Hmp)
      as (user & Hcalls & Huser & Hok).
    exists [], user.
    destruct (add_disk_partition_try o efi bootable (start d spec tr))
      as [r s1] eqn:Hbody.
    destruct (add_disk_partition_handler_calls o efi bootable disk _ _ _
                Hbody) as [-> _].
    cbn [fst snd] in *. rewrite Hcalls. split; [done |]. split; [by left | done].
Qed.

Lemma other_partition_keeps_mountpoint_witness :
  let spec := request (2 * GiB) "SWAP" VNone in
  let s' := (add_disk_partition_handler no_opts true (VBool false) "sda"
               (start sda spec [])).2 in
  ∃ boot user,
    add_partition_calls (trace s') = add_partition_calls [] ++ boot ++ user
    ∧ (boot = [] ∨ boot = [uefi_partition] ∨ boot = [bios_partition])
    ∧ (user = []
       ∨ ∃ partnum size,
           user = [ {| kw_partnum := partnum;
                       kw_size := size;
                       kw_fstype := VStr "SWAP";
                       kw_mountpoint := Some VNone;
                       kw_flag := None |} ])
    ∧ ((add_disk_partition_try no_opts true (VBool false)
          (start sda spec [])).1 = Ok tt →
       user ≠ []).
Proof.
  apply (other_partition_keeps_mountpoint no_opts true (VBool false) "sda"
           sda (request (2 * GiB) "SWAP" VNone) [] (VStr "SWAP") VNone).
  - vm_compute; reflexivity.
  - reflexivity.
  - vm_compute; reflexivity.
Defined.

(** ** Writing the curtin configuration: the other outcomes *)

Section FilesystemHandlerFacts.
Context {action W : Type}.
Variable write_storage : option (list action) → M W unit.
Variable write_preserved : list action → M W unit.
Variable preserve_action : action → result action.

(** The list comprehension keeps length and order, and fails with the
    exception of an action that cannot be preserved. *)
Lemma preserve_all_ok l r :
  preserve_all preserve_action l = Ok r →
  Forall2 (λ a a', preserve_action a = Ok a') l r.
Proof.
  revert r. induction l as [|a l IH]; intros r; cbn.
  - intros [= <-]. constructor.
  - destruct (preserve_action a) as [a'|e] eqn:Ha; [| done].
    destruct (preserve_all preserve_action l) as [r'|e]; [| done].
    intros [= <-]. constructor; [done | by apply IH].
Qed.

Lemma preserve_all_raise l e :
  preserve_all preserve_action l = Raise e →
  ∃ a, a ∈ l ∧ preserve_action a = Raise e.
Proof.
  induction l as [|a l IH]; cbn; [done |].
  destruct (preserve_action a) as [a'|e'] eqn:Ha.
  - destruct (preserve_all preserve_action l) as [r'|e'']; [done |].
    intros [= ->]. destruct (IH eq_refl) as (b & Hb & Hpb).
    exists b. split; [by right | done].
  - intros [= ->]. exists a. split; [by left | done].
Qed.

Lemma preserve_all_some_raise l a e :
  a ∈ l → preserve_action a = Raise e →
  ∃ e', preserve_all preserve_action l = Raise e'.
Proof.
  induction l as [|b l IH]; [by intros ?%elem_of_nil |].
  intros Hin Ha. cbn.
  destruct (preserve_action b) as [b'|e'] eqn:Hb; [| by eexists].
  apply elem_of_cons in Hin as [-> | Hin]; [congruence |].
  destruct (IH Hin Ha) as [e' ->]. by eexists.
Qed.

End FilesystemHandlerFacts.

(** X8: when both writes return, the handler writes the actions as given,
    then the preserved copies (as many, in the same order, each the result
    of [preserve_action] on the action in its place), logs the two steps,
    emits 'identity:show' as its only signal and returns [None]. *)
Theorem both_writes_then_identity_show
    {action W : Type}
    (write_storage : option (list action) → M W unit)
    (write_preserved : list action → M W unit)
    (preserve_action : action → result action)
    (reset : pyval) (actions preserved_actions : list action)
    (w w1 w2 : W) (tr : list event) :
  write_storage (Some actions) w = (Ok tt, w1) →
  preserved preserve_action (Some actions) = Ok preserved_actions →
  write_preserved preserved_actions w1 = (Ok tt, w2) →
  filesystem_handler write_storage write_preserved preserve_action
    reset (Some actions) {| world := w; trace := tr |}
  = (Ok VNone,
     {| world := w2;
        trace := tr ++
          [LogInfo "Rendering curtin config from user choices";
           LogInfo "Rendering preserved config for post install";
           EmitSignal "identity:show" []] |})
  ∧ length preserved_actions = length actions
  ∧ ∀ i a, actions !! i = Some a →
           ∃ a', preserved_actions !! i = Some a'
                 ∧ preserve_action a = Ok a'.
Proof.
  intros Hw Hp Hw2. split; [| split].
  - unfold filesystem_handler.
    change (bool_decide (Some actions = None)) with false. cbn [andb].
    run. rewrite Hw. run. rewrite Hp. run. rewrite Hw2. cbn.
    by rewrite <- !app_assoc.
  - cbn in Hp. symmetry. by eapply Forall2_length, preserve_all_ok.
  - cbn in Hp. intros i a Hi.
    by apply (Forall2_lookup_l _ _ _ _ _ (preserve_all_ok _ _ _ Hp) Hi).
Qed.

Lemma both_writes_then_identity_show_witness :
  filesystem_handler write_storage_ok (write_ok "preserved")
    (λ a, Ok (a + 100)%nat) (VBool true) (Some [1; 2]%nat)
    {| world := []; trace := [] |}
  = (Ok VNone,
     {| world := [("storage", [1; 2]%nat); ("preserved", [101; 102]%nat)];
        trace := [] ++
          [LogInfo "Rendering curtin config from user choices";
           LogInfo "Rendering preserved config for post install";
           EmitSignal "identity:show" []] |})
  ∧ length [101; 102]%nat = length [1; 2]%nat
  ∧ ∀ i a, [1; 2]%nat !! i = Some a →
           ∃ a', [101; 102]%nat !! i = Some a' ∧ Ok (a + 100)%nat = Ok a'.
Proof.
  apply (both_writes_then_identity_show write_storage_ok
           (write_ok "preserved") (λ a, Ok (a + 100)%nat) (VBool true)
           [1; 2]%nat [101; 102]%nat []
           [("storage", [1; 2]%nat)]
           [("storage", [1; 2]%nat); ("preserved", [101; 102]%nat)] []).
  - reflexivity.
  - reflexivity.
  - reflexivity.
Defined.

(** X9: an exception of a writer that is not a [PermissionError] is not
    handled: it leaves the handler, nothing is logged as an exception and
    neither 'filesystem:error' nor 'identity:show' is emitted. After such
    a failure of the first write the second write is not attempted. *)
Theorem other_write_errors_propagate
    {action W : Type}
    (write_storage : option (list action) → M W unit)
    (write_preserved : list action → M W unit)
    (preserve_action : action → result action)
    (reset : pyval) (actions : list action) (w : W) (tr : list event) :
  let run := filesystem_handler write_storage write_preserved preserve_action
               reset (Some actions) {| world := w; trace := tr |} in
  (∀ e w1,
     write_storage (Some actions) w = (Raise e, w1) →
     e ≠ PermissionError →
     run = (Raise e,
            {| world := w1;
               trace := tr ++
                 [LogInfo "Rendering curtin config from user choices"] |}))
  ∧ (∀ e w1 preserved_actions w2,
       write_storage (Some actions) w = (Ok tt, w1) →
       preserved preserve_action (Some actions) = Ok preserved_actions →
       write_preserved preserved_actions w1 = (Raise e, w2) →
       e ≠ PermissionError →
       run = (Raise e,
              {| world := w2;
                 trace := tr ++
                   [LogInfo "Rendering curtin config from user choices";
                    LogInfo "Rendering preserved config for post install"]
              |})).
Proof.
  intros run. subst run. unfold filesystem_handler.
  change (bool_decide (Some actions = None)) with false. cbn [andb].
  split.
  - intros e w1 Hw He. run. rewrite Hw. cbn.
    destruct e; try done.
  - intros e w1 pl w2 Hw Hp Hw2 He. run. rewrite Hw. run. rewrite Hp. run.
    rewrite Hw2. cbn. rewrite <- !app_assoc.
    destruct e; try done.
Qed.

Lemma other_write_errors_propagate_witness :
  filesystem_handler (λ _ files, (Raise TypeError, files)) write_denied
    (λ a, Ok a) (VBool false) (Some [7]%nat)
    {| world := ([] : list (string * list nat)); trace := [] |}
  = (Raise TypeError,
     {| world := [];
        trace := [] ++
          [LogInfo "Rendering curtin config from user choices"] |})
  ∧ filesystem_handler write_storage_ok (λ _ files, (Raise ValueError, files))
      (λ a, Ok a) (VBool false) (Some [7]%nat)
      {| world := []; trace := [] |}
    = (Raise ValueError,
       {| world := [("storage", [7]%nat)];
          trace := [] ++
            [LogInfo "Rendering curtin config from user choices";
             LogInfo "Rendering preserved config for post install"] |}).
Proof.
  split.
  - apply (proj1 (other_write_errors_propagate
                    (λ _ files, (Raise TypeError, files)) write_denied
                    (λ a, Ok a) (VBool false) [7]%nat [] [])).
    + reflexivity.
    + discriminate.
  - apply (proj2 (other_write_errors_propagate write_storage_ok
                    (λ _ files, (Raise ValueError, files))
                    (λ a, Ok a) (VBool false) [7]%nat [] [])
             ValueError [("storage", [7]%nat)] [7]%nat
             [("storage", [7]%nat)]).
    + reflexivity.
    + reflexivity.
    + reflexivity.
    + discriminate.
Defined.

(** X10: when the storage actions are written and some action cannot be
    preserved, the exception of such an action leaves the handler, even a
    [PermissionError]: the list of preserved actions is built outside the
    [try] statements. The storage actions stay written, the preserved
    actions are not written, and no signal is emitted. *)
Theorem unpreservable_action_propagates
    {action W : Type}
    (write_storage : option (list action) → M W unit)
    (write_preserved : list action → M W unit)
    (preserve_action : action → result action)
    (reset : pyval) (actions : list action) (w w1 : W) (tr : list event)
    (a : action) (e : exn) :
  write_storage (Some actions) w = (Ok tt, w1) →
  a ∈ actions →
  preserve_action a = Raise e →
  ∃ a' e',
    a' ∈ actions
    ∧ preserve_action a' = Raise e'
    ∧ filesystem_handler write_storage write_preserved preserve_action
        reset (Some actions) {| world := w; trace := tr |}
      = (Raise e',
         {| world := w1;
            trace := tr ++
              [LogInfo "Rendering curtin config from user choices";
               LogInfo "Rendering preserved config for post install"] |}).
Proof.
  intros Hw Hin Ha.
  destruct (preserve_all_some_raise preserve_action actions a e Hin Ha)
    as [e' He'].
  destruct (preserve_all_raise preserve_action actions e' He')
    as (a' & Hin' & Ha').
  exists a', e'. split; [done |]. split; [done |].
  unfold filesystem_handler.
  change (bool_decide (Some actions = None)) with false. cbn [andb].
  run. rewrite Hw. run. unfold preserved. rewrite He'. cbn.
  by rewrite <- !app_assoc.
Qed.

Lemma unpreservable_action_propagates_witness :
  ∃ a' e',
    a' ∈ [1; 0]%nat
    ∧ (λ a, if (a =? 0)%nat then Raise PermissionError else Ok a) a'
      = Raise e'
    ∧ filesystem_handler write_storage_ok (write_ok "preserved")
        (λ a, if (a =? 0)%nat then Raise PermissionError else Ok a)
        (VBool false) (Some [1; 0]%nat) {| world := []; trace := [] |}
      = (Raise e',
         {| world := [("storage", [1; 0]%nat)];
            trace := [] ++
              [LogInfo "Rendering curtin config from user choices";
               LogInfo "Rendering preserved config for post install"] |}).
Proof.
  apply (unpreservable_action_propagates write_storage_ok
           (write_ok "preserved")
           (λ a, if (a =? 0)%nat then Raise PermissionError else Ok a)
           (VBool false) [1; 0]%nat [] [("storage", [1; 0]%nat)] []
           0%nat PermissionError).
  - reflexivity.
  - apply elem_of_cons; right. apply elem_of_cons; by left.
  - reflexivity.
Defined.

(** X11: called without actions ([actions] is [None]), the handler emits
    'network:show' first when [reset] is [False] and then goes on all the
    same: it calls the first writer with [None], and when that returns it
    raises [TypeError] on iterating over [None]; when that raises
    [PermissionError] it reports 'filesystem:error' as usual. *)
Theorem filesystem_handler_without_actions
    {action W : Type}
    (write_storage : option (list action) → M W unit)
    (write_preserved : list action → M W unit)
    (preserve_action : action → result action)
    (reset : pyval) (w : W) (tr : list event) :
  let run := filesystem_handler write_storage write_preserved preserve_action
               reset None {| world := w; trace := tr |} in
  let first := if is_False reset then [EmitSignal "network:show" []] else [] in
  (∀ w1,
     write_storage None w = (Ok tt, w1) →
     run = (Raise TypeError,
            {| world := w1;
               trace := tr ++ first ++
                 [LogInfo "Rendering curtin config from user choices";
                  LogInfo "Rendering preserved config for post install"] |}))
  ∧ (∀ w1,
       write_storage None w = (Raise PermissionError, w1) →
       run = (Ok VNone,
              {| world := w1;
                 trace := tr ++ first ++
                   [LogInfo "Rendering curtin config from user choices";
                    LogException "Failed to write storage actions"
                      PermissionError;
                    EmitSignal "filesystem:error"
                      [VStr "curtin_write_storage_actions"]] |})).
Proof.
  intros run first. subst run first. unfold filesystem_handler.
  change (bool_decide (@None (list action) = None)) with true. cbn [andb].
  split; intros w1 Hw; destruct (is_False reset); run; rewrite Hw; cbn;
    by rewrite <- ?app_assoc.
Qed.

Lemma filesystem_handler_without_actions_witness :
  filesystem_handler (λ _ files, (Ok tt, files ++ [("storage", [])]))
    write_denied (λ a, Ok a) (VBool false) None
    {| world := ([] : list (string * list nat)); trace := [] |}
  = (Raise TypeError,
     {| world := [("storage", [])];
        trace := [] ++ [EmitSignal "network:show" []] ++
          [LogInfo "Rendering curtin config from user choices";
           LogInfo "Rendering preserved config for post install"] |})
  ∧ filesystem_handler write_storage_denied write_denied (λ a, Ok a)
      (VBool false) None {| world := []; trace := [] |}
    = (Ok VNone,
       {| world := [];
          trace := [] ++ [EmitSignal "network:show" []] ++
            [LogInfo "Rendering curtin config from user choices";
             LogException "Failed to write storage actions" PermissionError;
             EmitSignal "filesystem:error"
               [VStr "curtin_write_storage_actions"]] |}).
Proof.
  split.
  - apply (proj1 (filesystem_handler_without_actions
                    (λ _ files, (Ok tt, files ++ [("storage", [])]))
                    write_denied (λ a, Ok a) (VBool false) [] [])).
    reflexivity.
  - apply (proj2 (filesystem_handler_without_actions write_storage_denied
                    write_denied (λ a, Ok a) (VBool false) [] [])).
    reflexivity.
Defined.

(** Refutes the membership of a signal in a list of other signals. *)
Ltac sig_not_in H :=
  repeat (apply elem_of_cons in H as [H | H]; [by inversion H |]);
  by apply elem_of_nil in H.

(** X12: whatever the writers do, the handler only appends to the trace,
    and 'identity:show' is among what it appends only if it was given a
    list of actions, both writes returned and the handler returned [None];
    'network:show' is among it exactly when it was given no actions and
    [reset] is [False]. *)
Theorem identity_show_only_after_both_writes
    {action W : Type}
    (write_storage : option (list action) → M W unit)
    (write_preserved : list action → M W unit)
    (preserve_action : action → result action)
    (reset : pyval) (actions : option (list action)) (w : W)
    (tr : list event) :
  let run := filesystem_handler write_storage write_preserved preserve_action
               reset actions {| world := w; trace := tr |} in
  ∃ new,
    trace run.2 = tr ++ new
    ∧ (("identity:show", []) ∈ signals new →
       run.1 = Ok VNone
       ∧ ∃ l w1 preserved_actions,
           actions = Some l
           ∧ write_storage (Some l) w = (Ok tt, w1)
           ∧ preserved preserve_action (Some l) = Ok preserved_actions
           ∧ (write_preserved preserved_actions w1).1 = Ok tt
           ∧ world run.2 = (write_preserved preserved_actions w1).2)
    ∧ (("network:show", []) ∈ signals new ↔
       actions = None ∧ reset = VBool false).
Proof.
  intros run. subst run. unfold filesystem_handler.
  assert (Hreset : is_False reset = true ↔ reset = VBool false).
  { split; [| by intros ->]. by destruct reset as [|[]| |]. }
  destruct actions as [l|].
  - change (bool_decide (Some l = None)) with false. cbn [andb]. run.
    assert (Hnet : ∀ sigs : list (string * list pyval),
              ("network:show", []) ∉ sigs →
              ("network:show", []) ∈ sigs
              ↔ Some l = None ∧ reset = VBool false).
    { intros sigs Hn. split; [done | by intros [? _]]. }
    destruct (write_storage (Some l) w) as [[[]|e] w1] eqn:Hw; run.
    + destruct (preserved preserve_action (Some l)) as [pl|e] eqn:Hp; run.
      * destruct (write_preserved pl w1) as [[[]|e] w2] eqn:Hw2; run.
        -- eexists. rewrite <- !app_assoc. split; [done |]. cbn. split.
           ++ intros _. split; [done |]. exists l, w1, pl. by rewrite Hw2.
           ++ apply Hnet. intros Hn. sig_not_in Hn.
        -- destruct (isinstance_PermissionError e); cbn;
             eexists; rewrite <- ?app_assoc; (split; [done |]); cbn;
             (split; [intros Hn; sig_not_in Hn
                     | apply Hnet; intros Hn; sig_not_in Hn]).
      * eexists. rewrite <- !app_assoc. split; [done |]. cbn.
        split; [intros Hn; sig_not_in Hn
               | apply Hnet; intros Hn; sig_not_in Hn].
    + destruct (isinstance_PermissionError e); cbn;
        eexists; rewrite <- ?app_assoc; (split; [done |]); cbn;
        (split; [intros Hn; sig_not_in Hn
                | apply Hnet; intros Hn; sig_not_in Hn]).
  - change (bool_decide (@None (list action) = None)) with true. cbn [andb].
    destruct (is_False reset) eqn:Hr; run;
      destruct (write_storage None w) as [[[]|e] w1] eqn:Hw; run;
      try (destruct (isinstance_PermissionError e); cbn);
      eexists; rewrite <- ?app_assoc; (split; [done |]); cbn;
      (split; [intros Hn; sig_not_in Hn |]); rewrite <- Hreset;
      (split; [| intros [_ Hf]]);
      first [ done
            | by (apply elem_of_cons; left)
            | intros Hn; sig_not_in Hn ].
Qed.


(** ** Next and previous disk: errors, round trips and cycles *)

(** What both handlers do for a current device at index [i]. *)
Lemma show_disk_information_at {W} (available : list string) curr i
    (s : ctl W) :
  list_index available curr = Ok i →
  ∃ next prev,
    available !! Z.to_nat ((i + 1) mod len available) = Some next
    ∧ available !! Z.to_nat ((i - 1) mod len available) = Some prev
    ∧ show_disk_information_next available curr s
      = (Ok VNone,
         {| world := world s; trace := trace s ++ [ShowDiskInformation next] |})
    ∧ show_disk_information_prev available curr s
      = (Ok VNone,
         {| world := world s; trace := trace s ++ [ShowDiskInformation prev] |}).
Proof.
  intros Hidx.
  destruct (list_index_bounds available curr i Hidx) as [Hi _].
  assert (Hn : 0 < len available) by lia.
  destruct (list_getitem_in_range available ((i + 1) mod len available))
    as (next & Hnext & Hgn); [by apply Z.mod_pos_bound |].
  destruct (list_getitem_in_range available ((i - 1) mod len available))
    as (prev & Hprev & Hgp); [by apply Z.mod_pos_bound |].
  exists next, prev.
  assert (Hnz : (len available =? 0) = false) by (apply Z.eqb_neq; lia).
  repeat split; try done.
  - unfold show_disk_information_next, py_mod. run.
    by rewrite Hidx, Hnz, Hgn.
  - unfold show_disk_information_prev, py_mod. run.
    by rewrite Hidx, Hnz, Hgp.
Qed.



(** Without duplicates, [index] gives back the position of an element. *)
Lemma list_index_lookup_NoDup (l : list string) (j : nat) x :
  NoDup l → l !! j = Some x → list_index l x = Ok (Z.of_nat j).
Proof.
  intros Hnd. revert j. induction Hnd as [|y l Hy Hnd IH]; intros j; [done |].
  cbn [list_index]. destruct j as [|j]; cbn.
  - intros [= ->]. by rewrite String.eqb_refl.
  - intros Hj. destruct (String.eqb_spec y x) as [-> | _].
    + exfalso. apply Hy. by eapply list_elem_of_lookup_2.
    + rewrite (IH j Hj). f_equal. lia.
Qed.

(** X14: in a list of available devices without duplicates, previous
    undoes next and next undoes previous: from the device that next shows,
    previous shows the current device again, and the other way round. *)
Theorem next_prev_round_trip
    {W} (available : list string) (curr : string) (s s' : ctl W) :
  NoDup available →
  curr ∈ available →
  ∃ next prev,
    show_disk_information_next available curr s
    = (Ok VNone,
       {| world := world s; trace := trace s ++ [ShowDiskInformation next] |})
    ∧ show_disk_information_prev available next s'
      = (Ok VNone,
         {| world := world s';
            trace := trace s' ++ [ShowDiskInformation curr] |})
    ∧ show_disk_information_prev available curr s
      = (Ok VNone,
         {| world := world s; trace := trace s ++ [ShowDiskInformation prev] |})
    ∧ show_disk_information_next available prev s'
      = (Ok VNone,
         {| world := world s';
            trace := trace s' ++ [ShowDiskInformation curr] |}).
Proof.
  intros Hnd Hin.
  destruct (list_index_elem_of available curr Hin) as [i Hidx].
  destruct (list_index_bounds available curr i Hidx) as [Hi Hcurr].
  assert (Hn : 0 < len available) by lia.
  destruct (show_disk_information_at available curr i s Hidx)
    as (next & prev & Hnext & Hprev & Hrn & Hrp).
  exists next, prev. split; [done |].
  pose proof (Z.mod_pos_bound (i + 1) (len available) Hn) as Hb1.
  pose proof (Z.mod_pos_bound (i - 1) (len available) Hn) as Hb2.
  assert (Hin1 : list_index available next = Ok ((i + 1) mod len available)).
  { rewrite (list_index_lookup_NoDup _ _ _ Hnd Hnext). f_equal. lia. }
  assert (Hip : list_index available prev = Ok ((i - 1) mod len available)).
  { rewrite (list_index_lookup_NoDup _ _ _ Hnd Hprev). f_equal. lia. }
  destruct (show_disk_information_at available next _ s' Hin1)
    as (_ & back & _ & Hback & _ & Hrb).
  destruct (show_disk_information_at available prev _ s' Hip)
    as (forth & _ & Hforth & _ & Hrf & _).
  rewrite Zminus_mod_idemp_l in Hback.
  replace (i + 1 - 1) with i in Hback by lia.
  rewrite Zplus_mod_idemp_l in Hforth.
  replace (i - 1 + 1) with i in Hforth by lia.
  rewrite Z.mod_small in Hback, Hforth by lia.
  assert (back = curr) as -> by congruence.
  assert (forth = curr) as -> by congruence.
  done.
Qed.

Lemma next_prev_round_trip_witness :
  ∃ next prev,
    show_disk_information_next ["sda"; "sdb"; "sdc"] "sdc"
      {| world := tt; trace := [] |}
    = (Ok VNone,
       {| world := tt; trace := [] ++ [ShowDiskInformation next] |})
    ∧ show_disk_information_prev ["sda"; "sdb"; "sdc"] next
        {| world := tt; trace := [ShowDiskInformation "sda"] |}
      = (Ok VNone,
         {| world := tt;
            trace := [ShowDiskInformation "sda"] ++
                     [ShowDiskInformation "sdc"] |})
    ∧ show_disk_information_prev ["sda"; "sdb"; "sdc"] "sdc"
        {| world := tt; trace := [] |}
      = (Ok VNone,
         {| world := tt; trace := [] ++ [ShowDiskInformation prev] |})
    ∧ show_disk_information_next ["sda"; "sdb"; "sdc"] prev
        {| world := tt; trace := [ShowDiskInformation "sda"] |}
      = (Ok VNone,
         {| world := tt;
            trace := [ShowDiskInformation "sda"] ++
                     [ShowDiskInformation "sdc"] |}).
Proof.
  apply (next_prev_round_trip ["sda"; "sdb"; "sdc"] "sdc"
           {| world := tt; trace := [] |}
           {| world := tt; trace := [ShowDiskInformation "sda"] |}).
  - repeat constructor; intros Hin;
      repeat (apply elem_of_cons in Hin as [[=] | Hin]);
      by apply elem_of_nil in Hin.
  - apply elem_of_cons; right. apply elem_of_cons; right.
    apply elem_of_cons; by left.
Defined.

(** Asking [k] times for the next disk moves [k] positions on, wrapping
    around. *)
Lemma press_next_lookup (available : list string) (k i : nat) curr :
  NoDup available →
  available !! i = Some curr →
  press_next k available curr
  = available !! Z.to_nat ((Z.of_nat i + Z.of_nat k) mod len available).
Proof.
  intros Hnd. revert i curr. induction k as [|k IH]; intros i curr Hi.
  - cbn [press_next]. pose proof (lookup_lt_Some _ _ _ Hi) as Hlt.
    rewrite Z.add_0_r, Z.mod_small by (unfold len; lia).
    by rewrite Nat2Z.id.
  - cbn [press_next].
    pose proof (lookup_lt_Some _ _ _ Hi) as Hlt.
    assert (Hn : 0 < len available) by (unfold len; lia).
    destruct (show_disk_information_at available curr (Z.of_nat i)
                {| world := tt; trace := [] |})
      as (next & _ & Hnext & _ & -> & _);
      [by apply list_index_lookup_NoDup |].
    cbn. pose proof (Z.mod_pos_bound (Z.of_nat i + 1) (len available) Hn).
    rewrite (IH _ next Hnext). f_equal. f_equal.
    rewrite Z2Nat.id by lia. rewrite Zplus_mod_idemp_l. f_equal. lia.
Qed.

(** X15: in a list of available devices without duplicates, asking for the
    next disk as many times as there are devices comes back to the current
    device, and every device is shown on the way: each is reached in fewer
    steps than there are devices. *)
Theorem next_cycles_through_all_devices
    (available : list string) (curr : string) :
  NoDup available →
  curr ∈ available →
  press_next (length available) available curr = Some curr
  ∧ ∀ device,
      device ∈ available →
      ∃ k, (k < length available)%nat
           ∧ press_next k available curr = Some device.
Proof.
  intros Hnd Hin.
  apply list_elem_of_lookup in Hin as [i Hi].
  pose proof (lookup_lt_Some _ _ _ Hi) as Hlt.
  assert (Hn : 0 < len available) by (unfold len; lia).
  split.
  - rewrite (press_next_lookup available _ i curr Hnd Hi).
    fold (len available).
    replace (Z.of_nat i + len available)
      with (Z.of_nat i + 1 * len available) by lia.
    rewrite Z_mod_plus_full, Z.mod_small by (unfold len; lia).
    by rewrite Nat2Z.id.
  - intros device Hdev. apply list_elem_of_lookup in Hdev as [j Hj].
    pose proof (lookup_lt_Some _ _ _ Hj) as Hjlt.
    pose proof (Z.mod_pos_bound (Z.of_nat j - Z.of_nat i) (len available) Hn)
      as Hb.
    exists (Z.to_nat ((Z.of_nat j - Z.of_nat i) mod len available)).
    split; [unfold len in *; lia |].
    rewrite (press_next_lookup available _ i curr Hnd Hi).
    rewrite Z2Nat.id by lia. rewrite Zplus_mod_idemp_r.
    replace (Z.of_nat i + (Z.of_nat j - Z.of_nat i)) with (Z.of_nat j) by lia.
    rewrite Z.mod_small by (unfold len; lia).
    by rewrite Nat2Z.id.
Qed.

Lemma next_cycles_through_all_devices_witness :
  press_next (length ["sda"; "sdb"; "sdc"]) ["sda"; "sdb"; "sdc"] "sdb"
  = Some "sdb"
  ∧ ∀ device,
      device ∈ ["sda"; "sdb"; "sdc"] →
      ∃ k, (k < length ["sda"; "sdb"; "sdc"])%nat
           ∧ press_next k ["sda"; "sdb"; "sdc"] "sdb" = Some device.
Proof.
  apply (next_cycles_through_all_devices ["sda"; "sdb"; "sdc"] "sdb").
  - repeat constructor; intros Hin;
      repeat (apply elem_of_cons in Hin as [[=] | Hin]);
      by apply elem_of_nil in Hin.
  - apply elem_of_cons; right. apply elem_of_cons; by left.
Defined.

(** ** The WSL configuration base model: missing attributes and round trips *)

(** X16: when the result lacks one of the four attributes,
    [apply_settings] raises [AttributeError] for an attribute the result
    lacks, and the model keeps the configuration it had: the new record is
    stored only after all four attributes were read. *)
Theorem apply_settings_missing_attribute
    (result : gmap string pyval) (self : WSL.WSLConfigurationBaseModel)
    (name : string) :
  name ∈ WSL.fields →
  result !! name = None →
  ∃ missing,
    missing ∈ WSL.fields
    ∧ result !! missing = None
    ∧ WSL.apply_settings result self = (Raise (AttributeError missing), self).
Proof.
  intros Hin Hnone. unfold WSL.apply_settings, WSL.getattr. run.
  destruct (result !! "automount_root") as [a|] eqn:Ha; cycle 1.
  { exists "automount_root". repeat split; [| done]. by left. }
  destruct (result !! "automount_options") as [b|] eqn:Hb; cycle 1.
  { exists "automount_options". repeat split; [| done].
    right. by left. }
  destruct (result !! "network_generatehosts") as [c|] eqn:Hc; cycle 1.
  { exists "network_generatehosts". repeat split; [| done].
    right. right. by left. }
  destruct (result !! "network_generateresolvconf") as [e|] eqn:He; cycle 1.
  { exists "network_generateresolvconf". repeat split; [| done].
    right. right. right. by left. }
  exfalso. unfold WSL.fields in Hin.
  repeat (apply elem_of_cons in Hin as [-> | Hin]); try congruence.
  by apply elem_of_nil in Hin.
Qed.

Lemma apply_settings_missing_attribute_witness :
  let result : gmap string pyval :=
    <["automount_root" := VStr "/mnt/"]>
      (<["network_generatehosts" := VBool true]> ∅) in
  let self := {| WSL._wslconfbase :=
                   Some {| WSL.automount_root := VStr "/";
                           WSL.automount_options := VStr "";
                           WSL.network_generatehosts := VBool false;
                           WSL.network_generateresolvconf := VBool false |} |} in
  ∃ missing,
    missing ∈ WSL.fields
    ∧ result !! missing = None
    ∧ WSL.apply_settings result self = (Raise (AttributeError missing), self).
Proof.
  intros result self.
  apply (apply_settings_missing_attribute result self
           "network_generateresolvconf").
  - unfold WSL.fields. do 3 (apply elem_of_cons; right).
    apply elem_of_cons; by left.
  - vm_compute; reflexivity.
Defined.


(** X18: [apply_settings] on an object that carries the attributes of a
    record stores that record: applying the model's own configuration back
    to it changes nothing, and the configuration applied last is the one
    that stays, whatever was applied before. *)
Theorem apply_settings_round_trip
    (c : WSL.WSLConfigurationBase) (self : WSL.WSLConfigurationBaseModel)
    (earlier : gmap string pyval) :
  WSL.wslconfbase (WSL.apply_settings (attributes c) self).2 = Some c
  ∧ (WSL.wslconfbase self = Some c →
     WSL.apply_settings (attributes c) self = (Ok VNone, self))
  ∧ (WSL.apply_settings (attributes c)
       (WSL.apply_settings earlier self).2).2
    = (WSL.apply_settings (attributes c) self).2.
Proof.
  assert (Hrun : ∀ m, WSL.apply_settings (attributes c) m
                      = (Ok VNone, {| WSL._wslconfbase := Some c |})).
  { intros m. unfold WSL.apply_settings, WSL.getattr, attributes. run.
    simplify_map_eq. rewrite WSLConfigurationBase_init_ok. by destruct c. }
  rewrite !Hrun. split; [done |]. split; [| done].
  destruct self as [m]. cbn. by intros ->.
Qed.
